(** * AmmoSystemDev: the ammo resolution and combat modifier engine

    A shallow embedding of [src/AmmoSystemDev.js] (an RPG Maker MV plugin).

    Conventions of the embedding.
    - JavaScript numbers are idealised as rationals ([Q]): every operation
      the plugin performs on them (+, *, /, [Math.min], [Math.max],
      [Math.pow] with an integer exponent, [Math.round]) is rational.
      Counts and ids ([numItems], item ids, variable ids, the [MultiShot]
      count) are integers ([Z]). The program computes in IEEE doubles:
      module [Double] evaluates the multi-shot formulas in doubles, and
      module [Ideal] delimits where the rationals speak for them; a
      statement that the rounding of doubles could falsify is made inside
      those limits only.
    - A note box is represented by the values its tags parse to, that is by
      the results of [getNotetagValue] / [getNotetagNumber] /
      [getNotetagStateInfo] / [getNotetagLowAmmoAnimInfo] on it
      ([None] for JavaScript's [null]); [x || 0] is [or0 x].
    - The host engine ([$gameVariables], [$gameParty], [$dataItems],
      [$dataWeapons], the methods the plugin wraps) is not part of the
      plugin: it is the interface [Host] over an abstract world [W].
    - A [TypeError] (dereferencing [null]) is [None] in an [option] result. *)

From Stdlib Require Import ZArith QArith Qround Qabs Qpower List String Bool Lia Lqa.
From Stdlib Require Floats.PrimFloat.
Import ListNotations.

Local Open Scope Z_scope.

(** ** JavaScript numbers *)

Module JS.

(** [x || 0] on the result of [getNotetagNumber]. *)
Definition or0 (o : option Q) : Q :=
  match o with Some q => q | None => 0%Q end.

(** [x < y] on numbers, as a boolean. *)
Definition ltb (x y : Q) : bool := negb (Qle_bool y x).

(** [Math.min], [Math.max] on numbers. *)
Definition min (x y : Q) : Q := if Qle_bool x y then x else y.
Definition max (x y : Q) : Q := if Qle_bool x y then y else x.

(** [Math.round]: the nearest integer, halves going up. *)
Definition round (x : Q) : Z := Qfloor (x + (1 # 2)).

(** [Math.pow x n] for an integer [n]. *)
Definition pow (x : Q) (n : Z) : Q := Qpower x n.

(** Truthiness of a string-or-null value. *)
Definition truthy (o : option string) : bool :=
  match o with
  | Some s => negb (String.eqb s EmptyString)
  | None => false
  end.

(** Truthiness of a number-or-null value. *)
Definition truthyZ (o : option Z) : bool :=
  match o with
  | Some z => negb (z =? 0)
  | None => false
  end.

Definition truthyQ (o : option Q) : bool :=
  match o with
  | Some q => negb (Qeq_bool q 0)
  | None => false
  end.

(** [a === b] on string-or-null values. *)
Definition streq (a b : option string) : bool :=
  match a, b with
  | Some x, Some y => String.eqb x y
  | None, None => true
  | _, _ => false
  end.

End JS.

(** ** Data model: database entries as their parsed note tags *)

(** An entry of [$dataItems]. *)
Record Item := mkItem {
  item_id : Z;
  item_Ammo : option string;          (* <Ammo: type> *)
  item_AmmoAtk : option Q;            (* <AmmoAtk: v> *)
  item_AmmoHitRate : option Q;        (* <AmmoHitRate: v> *)
  item_AmmoCrit : option Q;           (* <AmmoCrit: v> *)
  item_AmmoDmgType : option Q;        (* <AmmoDmgType: id> *)
  item_AmmoAnimation : option Q;      (* <AmmoAnimation: id> *)
  item_AmmoState : list (Z * Q)       (* getNotetagStateInfo: (id, chance/100) *)
}.

(** An entry of [$dataWeapons] (and its JSON copies). *)
Record Weapon := mkWeapon {
  weapon_Ammo : option string;        (* <Ammo: type> *)
  weapon_DefaultWeaponId : option Z;  (* <DefaultWeaponId: id> *)
  weapon_RangedHit : option Q;        (* <RangedHit: v> *)
  weapon_RangedCrit : option Q;       (* <RangedCrit: v> *)
  weapon_animationId : Q
}.

(** [getNotetagLowAmmoAnimInfo]: [{quantity, animId}]. *)
Record LowAmmoAnimInfo := mkLow { quantity : Q; animId : Q }.

(** A [Game_Action] with the skill or item it carries. *)
Record Action := mkAction {
  isAttack : bool;
  isSkill : bool;
  note_UseAmmo : bool;                (* note.includes('<UseAmmo>') *)
  note_StrictAmmo : bool;             (* note.includes('<StrictAmmo') *)
  note_MultiShot : bool;              (* note.includes('<MultiShot') *)
  StrictAmmo : option Q;              (* <StrictAmmo: v> *)
  MultiShot : option Z;               (* <MultiShot: count> *)
  LowAmmoAnimation : option LowAmmoAnimInfo;
  NoAmmoAnimation : option Q;         (* <NoAmmoAnimation: id> *)
  successRate : Q;
  _overrideAnimationId : Q
}.

(** An entry of the plugin parameter [ammoTypeVariables]. *)
Record AmmoVariable := mkAmmoVariable { ammoType : string; variableId : Z }.

(** A [Game_Actor]: the fields the plugin adds in [initMembers], and the
    host's own values the plugin reads through the methods it wraps. *)
Record Actor := mkActor {
  _battleWeapon : option Weapon;
  _originalWeaponData : option Weapon;
  _tempAmmoAtk : Q;
  _tempAmmoStateInfo : list (Z * Q);
  _tempAmmoElementId : option Q;
  _tempRangedHit : Q;
  _tempAmmoHit : Q;
  _tempRangedCrit : Q;
  _tempAmmoCrit : Q;
  _isApplyingTempAmmoParams : bool;
  _ammoToConsumeCount : Z;
  host_paramPlus : Z -> Q;            (* _Game_Actor_paramPlus *)
  host_xparam : Z -> Q;               (* _Game_Actor_xparam *)
  host_weapons : list Weapon          (* _Game_Actor_weapons *)
}.

(** A battler is an actor or an enemy ([isActor]). *)
Inductive Battler :=
| BActor (a : Actor)
| BEnemy.

(** What the Apply hook reads from a target once the wrapped
    [Game_Action.apply] has run: [target.result().isHit()],
    [target.isEnemy()], [target.isAlive()], and the values [Math.random()]
    yields for the state rolls of this call, in order. *)
Record TargetResult := mkTarget {
  result_isHit : bool;
  target_isEnemy : bool;
  target_isAlive : bool;
  random : nat -> Q
}.

(** ** The host engine *)

(** The state of the host ([$gameVariables], [$gameParty]) is an abstract
    world [W]; the plugin reaches it only through these operations. *)
Class Host (W : Type) := {
  _ammoTypeVariables : list AmmoVariable;  (* parsed plugin parameter *)
  dataItems : Z -> option Item;            (* $dataItems[id] *)
  dataWeapons : Z -> option Weapon;        (* $dataWeapons[id] *)
  isItem : Item -> bool;                   (* DataManager.isItem *)
  value : W -> Z -> Z;                     (* $gameVariables.value *)
  setValue : Z -> Z -> W -> W;             (* $gameVariables.setValue *)
  partyItems : W -> list (option Item);    (* $gameParty.items() *)
  hasItem : W -> Item -> bool;             (* $gameParty.hasItem *)
  numItems : W -> Item -> Z;               (* $gameParty.numItems *)
  loseItem : Item -> Z -> W -> W;          (* $gameParty.loseItem *)
  inBattle : W -> bool                     (* $gameParty.inBattle() *)
}.

(** [BattleManager] during one action. The host's [startAction] stores
    [subject.currentAction()] in [_action] before the plugin's hook runs, so
    the two are one object, [_action]. The wrapped host methods do not touch
    the fields the plugin adds to actors, and the host's [endAction] keeps
    [_subject]. *)
Record BattleManager (W : Type) := mkBM {
  world : W;
  _subject : option Battler;
  _action : option Action
}.
Arguments mkBM {W} _ _ _.
Arguments world {W} _.
Arguments _subject {W} _.
Arguments _action {W} _.

(** ** The plugin *)

Section AmmoSystem.

Context {W : Type} `{Host W}.

(** *** Utility functions *)

Definition getVariableIdForAmmoType (ammoType0 : option string) : option Z :=
  match find (fun e => JS.streq (Some (ammoType e)) ammoType0)
             _ammoTypeVariables with
  | Some entry => Some (variableId entry)
  | None => None
  end.

Definition findBestMatchingAmmoItem (w : W) (requiredAmmoType : option string)
  : option Item :=
  match find (fun it =>
                match it with
                | Some item =>
                    if isItem item
                    then JS.streq (item_Ammo item) requiredAmmoType
                    else false
                | None => false
                end) (partyItems w) with
  | Some it => it
  | None => None
  end.

(** [!variableId] holds for [null] (no entry) and for [0]. *)
Definition hasValidAmmo (w : W) (weaponAmmoType : option string) : bool :=
  match getVariableIdForAmmoType weaponAmmoType with
  | None => true
  | Some variableId0 =>
      if variableId0 =? 0 then true
      else
        let ammoId := value w variableId0 in
        let ammoItem := if 0 <? ammoId then dataItems ammoId else None in
        let anyMatching :=
          match findBestMatchingAmmoItem w weaponAmmoType with
          | Some _ => true
          | None => false
          end in
        match ammoItem with
        | Some it =>
            if JS.streq (item_Ammo it) weaponAmmoType && hasItem w it
            then true
            else anyMatching
        | None => anyMatching
        end
  end.

(** Returns the item and the world, whose selection slot it may write. *)
Definition ensureValidAmmoSelected (w : W) (weaponAmmoType : option string)
  : W * option Item :=
  match getVariableIdForAmmoType weaponAmmoType with
  | None => (w, None)
  | Some variableId0 =>
      if variableId0 =? 0 then (w, None)
      else
        let ammoId := value w variableId0 in
        let ammoItem := if 0 <? ammoId then dataItems ammoId else None in
        let reselect :=
          let bestAmmo := findBestMatchingAmmoItem w weaponAmmoType in
          (setValue variableId0
             (match bestAmmo with Some b => item_id b | None => 0 end) w,
           bestAmmo) in
        match ammoItem with
        | Some it =>
            if JS.streq (item_Ammo it) weaponAmmoType && hasItem w it
            then (w, Some it)
            else reselect
        | None => reselect
        end
  end.

(** *** Game_Actor *)

Definition initMembers (pp xp : Z -> Q) (ws : list Weapon) : Actor :=
  {| _battleWeapon := None;
     _originalWeaponData := None;
     _tempAmmoAtk := 0;
     _tempAmmoStateInfo := [];
     _tempAmmoElementId := None;
     _tempRangedHit := 0;
     _tempAmmoHit := 0;
     _tempRangedCrit := 0;
     _tempAmmoCrit := 0;
     _isApplyingTempAmmoParams := false;
     _ammoToConsumeCount := 0;
     host_paramPlus := pp;
     host_xparam := xp;
     host_weapons := ws |}.

Definition paramPlus (a : Actor) (paramId : Z) : Q :=
  let value0 := host_paramPlus a paramId in
  if _isApplyingTempAmmoParams a && (paramId =? 2)
  then (value0 + _tempAmmoAtk a)%Q
  else value0.

Definition xparam (a : Actor) (xparamId : Z) : Q :=
  let value0 := host_xparam a xparamId in
  if _isApplyingTempAmmoParams a then
    let value1 :=
      if xparamId =? 0
      then (value0 + (_tempRangedHit a + _tempAmmoHit a))%Q else value0 in
    if xparamId =? 2
    then (value1 + (_tempRangedCrit a + _tempAmmoCrit a))%Q else value1
  else value0.

Definition weapons (w : W) (a : Actor) : list Weapon :=
  match inBattle w, _battleWeapon a, host_weapons a with
  | true, Some bw, _ :: rest => bw :: rest
  | _, _, _ => host_weapons a
  end.

(** The two weapon copies of an actor, replaced together. *)
Definition set_weaponCopies (a : Actor) (bw ow : option Weapon) : Actor :=
  {| _battleWeapon := bw;
     _originalWeaponData := ow;
     _tempAmmoAtk := _tempAmmoAtk a;
     _tempAmmoStateInfo := _tempAmmoStateInfo a;
     _tempAmmoElementId := _tempAmmoElementId a;
     _tempRangedHit := _tempRangedHit a;
     _tempAmmoHit := _tempAmmoHit a;
     _tempRangedCrit := _tempRangedCrit a;
     _tempAmmoCrit := _tempAmmoCrit a;
     _isApplyingTempAmmoParams := _isApplyingTempAmmoParams a;
     _ammoToConsumeCount := _ammoToConsumeCount a;
     host_paramPlus := host_paramPlus a;
     host_xparam := host_xparam a;
     host_weapons := host_weapons a |}.

(** [subject._ammoToConsumeCount = n]. *)
Definition set_ammoToConsumeCount (a : Actor) (n : Z) : Actor :=
  {| _battleWeapon := _battleWeapon a;
     _originalWeaponData := _originalWeaponData a;
     _tempAmmoAtk := _tempAmmoAtk a;
     _tempAmmoStateInfo := _tempAmmoStateInfo a;
     _tempAmmoElementId := _tempAmmoElementId a;
     _tempRangedHit := _tempRangedHit a;
     _tempAmmoHit := _tempAmmoHit a;
     _tempRangedCrit := _tempRangedCrit a;
     _tempAmmoCrit := _tempAmmoCrit a;
     _isApplyingTempAmmoParams := _isApplyingTempAmmoParams a;
     _ammoToConsumeCount := n;
     host_paramPlus := host_paramPlus a;
     host_xparam := host_xparam a;
     host_weapons := host_weapons a |}.

(** [JSON.parse(JSON.stringify(undefined))] throws: [None]. *)
Definition setupBattleWeapon (a : Actor) : option Actor :=
  match host_weapons a with
  | [] => Some (set_weaponCopies a None None)
  | weapon :: _ =>
      let defaultId := weapon_DefaultWeaponId weapon in
      let baseWeapon :=
        match defaultId with
        | Some i => if i =? 0 then Some weapon else dataWeapons i
        | None => Some weapon
        end in
      match baseWeapon with
      | None => None
      | Some bw => Some (set_weaponCopies a (Some bw) (Some bw))
      end
  end.

(** Local values of [applyAmmoEffects], named as in the source. *)
Definition singleShotHitChance (baseHit rangedHitBonus ammoHitBonusForSim
                                  skillSuccessRate : Q) : Q :=
  let c := ((baseHit + rangedHitBonus + ammoHitBonusForSim)
            * skillSuccessRate)%Q in
  JS.max (1 # 100) (JS.min (95 # 100) c).

Definition probAtLeastOneHit (singleShot : Q) (numShots : Z) : Q :=
  let probOfAllMiss := JS.pow (1 - singleShot) numShots in
  (1 - probOfAllMiss)%Q.

(** [Math.round(numShots * baseAmmoAtk * probAtLeastOneHit)]. *)
Definition multiShotAtk (numShots : Z) (baseAmmoAtk singleShot : Q) : Z :=
  JS.round (inject_Z numShots * baseAmmoAtk
            * probAtLeastOneHit singleShot numShots).

(** [a * (1 - Math.pow(r, numShots)) / (1 - r)] with [r = 0.5]. *)
Definition totalBonus (a : Q) (numShots : Z) : Q :=
  let r := (1 # 2)%Q in
  (a * (1 - JS.pow r numShots) / (1 - r))%Q.

(** [lowAmmoAnimInfo && $gameParty.numItems(ammoItem) < lowAmmoAnimInfo.quantity] *)
Definition lowAmmo (w : W) (ammoItem : Item) (action : Action) : bool :=
  match LowAmmoAnimation action with
  | Some info => JS.ltb (inject_Z (numItems w ammoItem)) (quantity info)
  | None => false
  end.

(** The hit-rate and crit-rate blocks of the multi-shot branch: [initial] is
    the tag's value, [current] the bonus computed so far, [normal] and [low]
    the two modifiers. *)
Definition multiShotRateBonus (w : W) (ammoItem : Item) (action : Action)
    (numShots : Z) (initial current normal low : Q) : Q :=
  if JS.ltb 0 initial then
    let modifier := if lowAmmo w ammoItem action then low else normal in
    let a := (initial * modifier)%Q in
    if JS.ltb 0 a then (totalBonus a numShots / 100)%Q else 0%Q
  else current.

Definition applyAmmoEffects (w : W) (a : Actor) (ammoItem0 : option Item)
    (action : Action) : option Actor :=
  match ammoItem0 with
  | None => Some a
  | Some ammoItem =>
      let baseWeaponForAction := _battleWeapon a in
      let baseAmmoAtk := JS.or0 (item_AmmoAtk ammoItem) in
      let baseStates := item_AmmoState ammoItem in
      let finalAmmoHitBonus := (JS.or0 (item_AmmoHitRate ammoItem) / 100)%Q in
      let finalAmmoCritBonus := (JS.or0 (item_AmmoCrit ammoItem) / 100)%Q in
      (* the branch yields
         (_tempAmmoAtk, finalStates, hit bonus, crit bonus, ammoToConsume) *)
      let branch : option (Q * list (Z * Q) * Q * Q * Z) :=
        match MultiShot action with
        | Some multiShotCount =>
            if 0 <? multiShotCount then
              let numInInventory := numItems w ammoItem in
              let numShots := Z.min multiShotCount numInInventory in
              if 0 <? numShots then
                match baseWeaponForAction with
                | None => None
                | Some bw =>
                    let skillSuccessRate := (successRate action / 100)%Q in
                    let baseHit := xparam a 0 in
                    let rangedHitBonus :=
                      (JS.or0 (weapon_RangedHit bw) / 100)%Q in
                    let ammoHitBonusForSim :=
                      (JS.or0 (item_AmmoHitRate ammoItem) / 100)%Q in
                    let p := singleShotHitChance baseHit rangedHitBonus
                               ammoHitBonusForSim skillSuccessRate in
                    let atk := inject_Z (multiShotAtk numShots baseAmmoAtk p) in
                    let finalStates :=
                      if (0 <? Z.of_nat (List.length baseStates))
                      then List.concat (repeat baseStates (Z.to_nat numShots))
                      else [] in
                    let hit :=
                      multiShotRateBonus w ammoItem action numShots
                        (JS.or0 (item_AmmoHitRate ammoItem)) finalAmmoHitBonus
                        (75 # 100) (1 # 2) in
                    let crit :=
                      multiShotRateBonus w ammoItem action numShots
                        (JS.or0 (item_AmmoCrit ammoItem)) finalAmmoCritBonus
                        (1 # 2) (33 # 100) in
                    Some (atk, finalStates, hit, crit, numShots)
                end
              else
                Some (_tempAmmoAtk a, [], finalAmmoHitBonus,
                      finalAmmoCritBonus, 1)
            else
              Some (baseAmmoAtk, baseStates, finalAmmoHitBonus,
                    finalAmmoCritBonus, 1)
        | None =>
            Some (baseAmmoAtk, baseStates, finalAmmoHitBonus,
                  finalAmmoCritBonus, 1)
        end in
      match branch, baseWeaponForAction with
      | Some (atk, finalStates, hit, crit, ammoToConsume), Some bw =>
          Some {| _battleWeapon := _battleWeapon a;
                  _originalWeaponData := _originalWeaponData a;
                  _tempAmmoAtk := atk;
                  _tempAmmoStateInfo := finalStates;
                  _tempAmmoElementId := item_AmmoDmgType ammoItem;
                  _tempRangedHit := (JS.or0 (weapon_RangedHit bw) / 100)%Q;
                  _tempAmmoHit := hit;
                  _tempRangedCrit := (JS.or0 (weapon_RangedCrit bw) / 100)%Q;
                  _tempAmmoCrit := crit;
                  _isApplyingTempAmmoParams := true;
                  _ammoToConsumeCount := ammoToConsume;
                  host_paramPlus := host_paramPlus a;
                  host_xparam := host_xparam a;
                  host_weapons := host_weapons a |}
      | _, _ => None
      end
  end.

Definition resetAmmoEffects (a : Actor) : Actor :=
  {| _battleWeapon :=
       match _originalWeaponData a with
       | Some ow => Some ow
       | None => _battleWeapon a
       end;
     _originalWeaponData := _originalWeaponData a;
     _tempAmmoAtk := 0;
     _tempAmmoStateInfo := [];
     _tempAmmoElementId := None;
     _tempRangedHit := 0;
     _tempAmmoHit := 0;
     _tempRangedCrit := 0;
     _tempAmmoCrit := 0;
     _isApplyingTempAmmoParams := false;
     _ammoToConsumeCount := 0;
     host_paramPlus := host_paramPlus a;
     host_xparam := host_xparam a;
     host_weapons := host_weapons a |}.

(** *** BattleManager hooks *)

(** [subject._battleWeapon.animationId = id]. *)
Definition set_animationId (bw : Weapon) (id : Q) : Weapon :=
  {| weapon_Ammo := weapon_Ammo bw;
     weapon_DefaultWeaponId := weapon_DefaultWeaponId bw;
     weapon_RangedHit := weapon_RangedHit bw;
     weapon_RangedCrit := weapon_RangedCrit bw;
     weapon_animationId := id |}.

(** [action._overrideAnimationId = id]; an [undefined] field is [0]. *)
Definition set_overrideAnimationId (action : Action) (id : Q) : Action :=
  {| isAttack := isAttack action;
     isSkill := isSkill action;
     note_UseAmmo := note_UseAmmo action;
     note_StrictAmmo := note_StrictAmmo action;
     note_MultiShot := note_MultiShot action;
     StrictAmmo := StrictAmmo action;
     MultiShot := MultiShot action;
     LowAmmoAnimation := LowAmmoAnimation action;
     NoAmmoAnimation := NoAmmoAnimation action;
     successRate := successRate action;
     _overrideAnimationId := id |}.

(** [BattleManager.setup]: every party member snapshots its weapon. *)
Fixpoint setup (members : list Actor) : option (list Actor) :=
  match members with
  | [] => Some []
  | actor :: rest =>
      match setupBattleWeapon actor with
      | None => None
      | Some actor' =>
          match setup rest with
          | None => None
          | Some rest' => Some (actor' :: rest')
          end
      end
  end.

(** The part of [BattleManager.startAction] after the wrapped host method. *)
Definition startAction (bm : BattleManager W) : option (BattleManager W) :=
  match _subject bm with
  | Some (BActor subject) =>
      match _action bm, weapons (world bm) subject with
      | Some action, weapon :: _ =>
          let weaponAmmoType := weapon_Ammo weapon in
          let isAmmoAction :=
            isAttack action || note_UseAmmo action
            || note_StrictAmmo action || note_MultiShot action in
          if JS.truthy weaponAmmoType && isAmmoAction then
            let (w1, ammoToUse) :=
              ensureValidAmmoSelected (world bm) weaponAmmoType in
            let subject1 := resetAmmoEffects subject in
            match ammoToUse with
            | Some ammo =>
                match applyAmmoEffects w1 subject1 (Some ammo) action with
                | None => None
                | Some subject2 =>
                    if isAttack action then
                      let ammoAnimId := item_AmmoAnimation ammo in
                      let subject3 :=
                        match ammoAnimId, _battleWeapon subject2 with
                        | Some id, Some bw =>
                            if negb (Qeq_bool id 0)
                            then set_weaponCopies subject2
                                   (Some (set_animationId bw id))
                                   (_originalWeaponData subject2)
                            else subject2
                        | _, _ => subject2
                        end in
                      Some (mkBM w1 (Some (BActor subject3)) (Some action))
                    else if isSkill action then
                      let animationIdToUse :=
                        match MultiShot action, LowAmmoAnimation action with
                        | Some multiShotCount, Some lowAmmoAnimInfo =>
                            if (0 <? multiShotCount)
                               && JS.ltb (quantity lowAmmoAnimInfo)
                                         (inject_Z multiShotCount)
                            then
                              let currentAmmoCount := numItems w1 ammo in
                              if JS.ltb (inject_Z currentAmmoCount)
                                        (quantity lowAmmoAnimInfo)
                              then animId lowAmmoAnimInfo
                              else 0%Q
                            else 0%Q
                        | _, _ => 0%Q
                        end in
                      let action' :=
                        if JS.ltb 0 animationIdToUse
                        then set_overrideAnimationId action animationIdToUse
                        else action in
                      Some (mkBM w1 (Some (BActor subject2)) (Some action'))
                    else
                      Some (mkBM w1 (Some (BActor subject2)) (Some action))
                end
            | None =>
                let action' :=
                  if isSkill action then
                    match NoAmmoAnimation action with
                    | Some noAmmoAnimId =>
                        if negb (Qeq_bool noAmmoAnimId 0)
                        then set_overrideAnimationId action noAmmoAnimId
                        else action
                    | None => action
                    end
                  else action in
                Some (mkBM w1 (Some (BActor subject1)) (Some action'))
            end
          else Some bm
      | _, _ => Some bm
      end
  | _ => Some bm
  end.

Definition endAction (bm : BattleManager W) : BattleManager W :=
  let action' :=
    match _action bm with
    | Some action =>
        if negb (Qeq_bool (_overrideAnimationId action) 0)
        then Some (set_overrideAnimationId action 0)
        else Some action
    | None => None
    end in
  let subject' :=
    match _subject bm with
    | Some (BActor subject) =>
        if _isApplyingTempAmmoParams subject
        then Some (BActor (resetAmmoEffects subject))
        else Some (BActor subject)
    | other => other
    end in
  mkBM (world bm) subject' action'.

Definition endBattle (members : list Actor) : list Actor :=
  map (fun actor => resetAmmoEffects (set_weaponCopies actor None None))
      members.

(** *** Game_Action hooks *)

Definition animationId (action : Action) (host_animationId : Q) : Q :=
  if JS.ltb 0 (_overrideAnimationId action)
  then _overrideAnimationId action
  else host_animationId.

Definition numRepeats (action : Action) (host_numRepeats : Z) : Z :=
  match MultiShot action with
  | Some multiShotCount => if 0 <? multiShotCount then 1 else host_numRepeats
  | None => host_numRepeats
  end.

(** [host_itemHit] is the wrapped [Game_Action.itemHit]. *)
Definition itemHit {T : Type} (host_itemHit : T -> Q) (w : W)
    (subject0 : option Battler) (action : Action) (target : T) : Q :=
  match subject0 with
  | Some (BActor subject) =>
      if isSkill action then
        match StrictAmmo action with
        | Some strictAmmoValue =>
            match weapons w subject with
            | weapon :: _ =>
                let weaponAmmoType := weapon_Ammo weapon in
                if JS.truthy weaponAmmoType
                   && negb (hasValidAmmo w weaponAmmoType)
                then (strictAmmoValue / 100)%Q
                else host_itemHit target
            | [] => host_itemHit target
            end
        | None => host_itemHit target
        end
      else host_itemHit target
  | _ => host_itemHit target
  end.

(** [elementRate] is [target.elementRate], [host_calcElementRate] the
    wrapped method. *)
Definition calcElementRate {T : Type} (elementRate : T -> Q -> Q)
    (host_calcElementRate : T -> Q) (subject0 : option Battler) (target : T)
  : Q :=
  match subject0 with
  | Some (BActor subject) =>
      if _isApplyingTempAmmoParams subject then
        match _tempAmmoElementId subject with
        | Some ammoElementId =>
            if Qle_bool 0 ammoElementId
            then elementRate target ammoElementId
            else host_calcElementRate target
        | None => host_calcElementRate target
        end
      else host_calcElementRate target
  | _ => host_calcElementRate target
  end.

(** The states [forEach] adds: the [i]-th entry succeeds when the [i]-th
    draw of [Math.random()] is below its chance. *)
Fixpoint rollStates (draw : nat -> Q) (i : nat) (infos : list (Z * Q))
  : list Z :=
  match infos with
  | [] => []
  | (id, chance) :: rest =>
      (if JS.ltb (draw i) chance then [id] else [])
      ++ rollStates draw (S i) rest
  end.

(** The part of [Game_Action.apply] after the wrapped host method;
    [this.subject()] is the battle manager's subject. Returns the new state
    and the states added to the target. *)
Definition Game_Action_apply (bm : BattleManager W) (target : TargetResult)
  : BattleManager W * list Z :=
  match _subject bm with
  | Some (BActor subject) =>
      if _isApplyingTempAmmoParams subject then
        if result_isHit target then
          let added :=
            if (0 <? Z.of_nat (List.length (_tempAmmoStateInfo subject)))
               && target_isEnemy target && target_isAlive target
            then rollStates (random target) 0 (_tempAmmoStateInfo subject)
            else [] in
          if 0 <? _ammoToConsumeCount subject then
            let w' :=
              match weapons (world bm) subject with
              | weapon :: _ =>
                  let (w1, ammoItem) :=
                    ensureValidAmmoSelected (world bm) (weapon_Ammo weapon) in
                  match ammoItem with
                  | Some it => loseItem it (_ammoToConsumeCount subject) w1
                  | None => w1
                  end
              | [] => world bm
              end in
            (mkBM w' (Some (BActor (set_ammoToConsumeCount subject 0)))
                  (_action bm), added)
          else (bm, added)
        else
          (mkBM (world bm) (Some (BActor (set_ammoToConsumeCount subject 0)))
                (_action bm), [])
      else (bm, [])
  | _ => (bm, [])
  end.

(** The Apply hook run for each target of one action, in order. *)
Fixpoint applyTargets (bm : BattleManager W) (targets : list TargetResult)
  : BattleManager W :=
  match targets with
  | [] => bm
  | target :: rest => applyTargets (fst (Game_Action_apply bm target)) rest
  end.

(** *** Window_BattleLog hook *)

(** The animation id [Window_BattleLog.showAnimation] hands to the wrapped
    method; [action0] is [BattleManager._action]. *)
Definition showAnimation (action0 : option Action) (animationId0 : Q) : Q :=
  match action0 with
  | Some action =>
      if JS.ltb 0 (_overrideAnimationId action)
      then _overrideAnimationId action
      else animationId0
  | None => animationId0
  end.

(** *** The compound tag <LowAmmoAnimation: Q;id> *)

(** [s.split(sep)] for a one-character separator. *)
Fixpoint split (sep : Ascii.ascii) (s : string) : list string :=
  match s with
  | EmptyString => [EmptyString]
  | String c rest =>
      if Ascii.eqb c sep then EmptyString :: split sep rest
      else
        match split sep rest with
        | part :: parts => String c part :: parts
        | [] => [String c EmptyString]
        end
  end.

(** The separator [';'] (character code 59). *)
Definition semicolon : Ascii.ascii := Ascii.ascii_of_nat 59.

(** [getNotetagLowAmmoAnimInfo] from the tag's text on: [value] is what
    [getNotetagValue(note, "LowAmmoAnimation")] returned, and [Number s] is
    JavaScript's [Number(s.trim())], [None] standing for [NaN]. *)
Definition getNotetagLowAmmoAnimInfo (Number : string -> option Q)
    (value0 : option string) : option LowAmmoAnimInfo :=
  match value0 with
  | None => None
  | Some v =>
      if String.eqb v EmptyString then None
      else
        match split semicolon v with
        | [part0; part1] =>
            match Number part0, Number part1 with
            | Some quantity0, Some animId0 => Some (mkLow quantity0 animId0)
            | _, _ => None
            end
        | _ => None
        end
  end.

(** [parts.join(sep)], the inverse of [split]. *)
Fixpoint join (sep : Ascii.ascii) (parts : list string) : string :=
  match parts with
  | [] => EmptyString
  | [part] => part
  | part :: rest => (part ++ String sep (join sep rest))%string
  end.

(** The text [s] does not hold the character [sep]. *)
Definition free (sep : Ascii.ascii) (s : string) : Prop :=
  forall c, In c (list_ascii_of_string s) -> c <> sep.

(** *** Notions used to state the properties *)

(** A category has no selection slot unless the configuration has an entry for
    it whose variable id is not [0] ([!variableId]). *)
Definition unslotted (ty : option string) : Prop :=
  getVariableIdForAmmoType ty = None \/ getVariableIdForAmmoType ty = Some 0.

(** What the commit in [Game_Action.apply] does to the world: the selection is ensured again for
    the first weapon's ammo type, and the item it returns loses [n] units. *)
Definition commitConsumption (w : W) (subject : Actor) (n : Z) : W :=
  match weapons w subject with
  | weapon :: _ =>
      let (w1, ammoItem) := ensureValidAmmoSelected w (weapon_Ammo weapon) in
      match ammoItem with
      | Some it => loseItem it n w1
      | None => w1
      end
  | [] => w
  end.

(** The targets before the first hit: all of them misses. *)
Definition allMiss (targets : list TargetResult) : Prop :=
  Forall (fun t => result_isHit t = false) targets.

(** The overlay holds nothing: what [initMembers] and [resetAmmoEffects]
    leave in the fields of the overlay. *)
Definition overlayCleared (a : Actor) : Prop :=
  _isApplyingTempAmmoParams a = false
  /\ _tempAmmoAtk a = 0%Q
  /\ _tempAmmoStateInfo a = []
  /\ _tempAmmoElementId a = None
  /\ _tempRangedHit a = 0%Q
  /\ _tempAmmoHit a = 0%Q
  /\ _tempRangedCrit a = 0%Q
  /\ _tempAmmoCrit a = 0%Q
  /\ _ammoToConsumeCount a = 0.

(** The working copy and the pristine copy exist together: both are set by
    [setupBattleWeapon] and both are dropped by [endBattle]. *)
Definition copiesPaired (a : Actor) : Prop :=
  _battleWeapon a = None <-> _originalWeaponData a = None.


End AmmoSystem.

(** ** The specification's formulas, for comparison *)

Module Spec.

(** [clamp(x, lo, hi)]. *)
Definition clamp (x lo hi : Q) : Q := JS.max lo (JS.min hi x).

(** Section 4.2: [p = clamp(baseHitStat + rangedHitPct + ammoHitPct, 0.01,
    0.95) * (actionBaseSuccessRate/100)]. *)
Definition perShotHit (baseHitStat rangedHitPct ammoHitPct
                         actionBaseSuccessRate : Q) : Q :=
  (clamp (baseHitStat + rangedHitPct + ammoHitPct) (1 # 100) (95 # 100)
   * (actionBaseSuccessRate / 100))%Q.

(** Section 4.2: [P = 1 - (1-p)^shots]. *)
Definition P (p : Q) (shots : Z) : Q := (1 - (1 - p) ^ shots)%Q.

(** Section 4.2: attack delta [= round(shots * flatAttackBonus * P)]. *)
Definition attackDelta (shots : Z) (flatAttackBonus p : Q) : Z :=
  JS.round (inject_Z shots * flatAttackBonus * P p shots).

(** Section 4.2: hit-rate delta (%) [= a * (1 - 0.5^shots) / (1 - 0.5)]
    with [a = H * m]. *)
Definition hitRateDeltaPct (H m : Q) (shots : Z) : Q :=
  let a := (H * m)%Q in
  (a * (1 - (1 # 2) ^ shots) / (1 - (1 # 2)))%Q.

(** Section 4.2: the modifier [m] is [0.75] normally, [0.5] when a
    low-stock threshold is configured and the owned count is below it. *)
Definition hitModifier (threshold : option Q) (owned : Z) : Q :=
  match threshold with
  | Some t => if JS.ltb (inject_Z owned) t then (1 # 2)%Q else (3 # 4)%Q
  | None => (3 # 4)%Q
  end.

End Spec.

(** ** Where the rationals speak for the program's doubles *)

Module Ideal.

(** The distance kept from the ties [k + 1/2] of [Math.round]. *)
Definition tieMargin : Q := 1 # 1024.

(** [x] lies at least [tieMargin] inside the interval of the numbers that
    round to [JS.round x]: a double within [tieMargin] of [x] rounds to the
    same integer. *)
Definition clearOfTies (x : Q) : Prop :=
  (inject_Z (JS.round x) - (1 # 2) + tieMargin <= x)%Q
  /\ (x <= inject_Z (JS.round x) + (1 # 2) - tieMargin)%Q.

(** [|x| <= bound]. *)
Definition within (bound x : Q) : Prop :=
  (- bound <= x)%Q /\ (x <= bound)%Q.

(** Inputs of the attack-delta computation of [applyAmmoEffects] for which
    its doubles stay within [2^-13] of the exact values: hit stats of at
    most 1024 (sums are then exact to [2^-40], and so is the clamped
    chance), a success rate between 0 and 100 (the rate factor is at most
    1), and [volume = shots * flat] of at most [2^20] (the error of
    [P], at most [37 * 2^-39], is scaled by it). *)
Definition moderate (baseHit rangedHitBonus ammoHitBonus successRate0
                       volume : Q) : Prop :=
  within 1024 baseHit /\ within 1024 rangedHitBonus
  /\ within 1024 ammoHitBonus
  /\ (0 <= successRate0)%Q /\ (successRate0 <= 100)%Q
  /\ within (2 ^ 20) volume.

End Ideal.

(** ** The multi-shot formulas in IEEE doubles *)

Module Double.

Import PrimFloat.
#[local] Set Warnings "-inexact-float".
Local Open Scope float_scope.

(** An integer count as a double (exact below [2^53]). *)
Fixpoint ofPositive (n : positive) : float :=
  match n with
  | xH => 1
  | xO m => 2 * ofPositive m
  | xI m => 2 * ofPositive m + 1
  end.

Definition ofZ (n : Z) : float :=
  match n with
  | Z0 => 0
  | Zpos m => ofPositive m
  | Zneg m => - ofPositive m
  end.

(** [Math.pow x n] for an integer [n], as repeated multiplication in
    doubles. The engines' own [Math.pow] may differ from it in the last
    places; the facts stated with it below do not depend on those. *)
Definition pow (x : float) (n : Z) : float :=
  match n with
  | Z0 => 1
  | Zpos m => Pos.iter (fun acc => acc * x) 1 m
  | Zneg m => 1 / Pos.iter (fun acc => acc * x) 1 m
  end.

(** [Math.min], [Math.max] on numbers other than [NaN]. *)
Definition min (x y : float) : float := if x <? y then x else y.
Definition max (x y : float) : float := if x <? y then y else x.

(** Lines 292-295 of [applyAmmoEffects]. *)
Definition singleShotHitChance (baseHit rangedHitBonus ammoHitBonusForSim
                                  skillSuccessRate : float) : float :=
  let c := (baseHit + rangedHitBonus + ammoHitBonusForSim)
           * skillSuccessRate in
  max 0.01 (min 0.95 c).

Definition probAtLeastOneHit (singleShot : float) (numShots : Z) : float :=
  let probOfAllMiss := pow (1 - singleShot) numShots in
  1 - probOfAllMiss.

(** The number line 296 hands to [Math.round]. *)
Definition volleyProduct (numShots : Z) (baseAmmoAtk singleShot : float)
  : float :=
  ofZ numShots * baseAmmoAtk * probAtLeastOneHit singleShot numShots.

(** Lines 315-316 and 333-334. *)
Definition totalBonus (a : float) (numShots : Z) : float :=
  let r := 0.5 in
  a * (1 - pow r numShots) / (1 - r).

End Double.

(** ** A host to run the plugin on concrete data *)

Module MV.

(** Modelled from the spec: the host's selection-slot store and party
    inventory, which are not part of the plugin. Section 6 gives their
    interface: [ownedCount], [hasAny], [firstOwnedMatching] (stable order)
    and [deduct] (fails silently if the count exceeds the stock); the slot
    store is addressed by integer id and reads [0] where nothing was
    written. *)
Record World := mkWorld {
  variables : list (Z * Z);   (* slot id, value; the latest write first *)
  stock : list (Z * Z);       (* item id, owned count; in iteration order *)
  battle : bool
}.

(** Reading an association list; [0] where there is no entry. *)
Definition lookup (k : Z) (l : list (Z * Z)) : Z :=
  match find (fun e => fst e =? k) l with
  | Some e => snd e
  | None => 0
  end.

(** Modelled from the spec: [ownedCount(instanceId) -> int] of section 6. *)
Definition ownedCount (w : World) (it : Item) : Z :=
  lookup (item_id it) (stock w).

(** Modelled from the spec: [deduct(instanceId, count)] of section 6, which
    fails silently if the count exceeds the stock. *)
Definition deduct (it : Item) (n : Z) (w : World) : World :=
  if n <=? ownedCount w it then
    mkWorld (variables w)
            (map (fun e => if fst e =? item_id it then (fst e, snd e - n) else e)
                 (stock w))
            (battle w)
  else w.

(** Modelled from the spec: a write to the selection-slot store, the host's
    integer-addressed global-variable store (section 6). *)
Definition write (id v : Z) (w : World) : World :=
  mkWorld ((id, v) :: variables w) (stock w) (battle w).

(** The database entry with a given id. *)
Definition entry (db : list Item) (id : Z) : option Item :=
  find (fun it => item_id it =? id) db.

(** Modelled from the spec: the owned instances in the stable iteration
    order behind [firstOwnedMatching] (section 6): those with a positive
    count. *)
Definition owned (db : list Item) (w : World) : list (option Item) :=
  map (fun e => entry db (fst e)) (filter (fun e => 0 <? snd e) (stock w)).

(** Modelled from the spec: the host of section 6 over a slot configuration
    and an item database; [hasAny] is a positive [ownedCount]. *)
Definition host (cfg : list AmmoVariable) (db : list Item) : Host World :=
  {| _ammoTypeVariables := cfg;
     dataItems := entry db;
     dataWeapons := fun _ => None;
     isItem := fun it => existsb (fun d => item_id d =? item_id it) db;
     value := fun w id => lookup id (variables w);
     setValue := write;
     partyItems := owned db;
     hasItem := fun w it => 0 <? ownedCount w it;
     numItems := ownedCount;
     loseItem := deduct;
     inBattle := battle |}.

(** Sample data: two kinds of arrows, a bow, a slot for "Arrow". *)
Definition arrow : Item :=
  {| item_id := 5; item_Ammo := Some "Arrow"%string;
     item_AmmoAtk := Some (8 # 1); item_AmmoHitRate := Some (20 # 1);
     item_AmmoCrit := Some (10 # 1); item_AmmoDmgType := None;
     item_AmmoAnimation := None; item_AmmoState := [(4, 1 # 2)] |}.

Definition fireArrow : Item :=
  {| item_id := 6; item_Ammo := Some "Arrow"%string;
     item_AmmoAtk := Some (12 # 1); item_AmmoHitRate := None;
     item_AmmoCrit := None; item_AmmoDmgType := Some (2 # 1);
     item_AmmoAnimation := Some (70 # 1); item_AmmoState := [] |}.

Definition bow : Weapon :=
  {| weapon_Ammo := Some "Arrow"%string; weapon_DefaultWeaponId := None;
     weapon_RangedHit := Some (10 # 1); weapon_RangedCrit := None;
     weapon_animationId := 11 |}.

Definition demo : Host World :=
  host [mkAmmoVariable "Arrow" 10] [arrow; fireArrow].

(** A host with no slot configured for any category. *)
Definition noSlots : Host World := host [] [arrow; fireArrow].

(** A battle world: slot 10 holds item 5; [n] arrows, [m] fire arrows. *)
Definition inventory (n m : Z) : World :=
  mkWorld [(10, 5)] [(5, n); (6, m)] true.

(** An archer holding the bow, after [setupBattleWeapon]. *)
Definition archer (baseHit : Q) : Actor :=
  {| _battleWeapon := Some bow;
     _originalWeaponData := Some bow;
     _tempAmmoAtk := 0;
     _tempAmmoStateInfo := [];
     _tempAmmoElementId := None;
     _tempRangedHit := 0;
     _tempAmmoHit := 0;
     _tempRangedCrit := 0;
     _tempAmmoCrit := 0;
     _isApplyingTempAmmoParams := false;
     _ammoToConsumeCount := 0;
     host_paramPlus := fun _ => 0%Q;
     host_xparam := fun id => if id =? 0 then baseHit else 0%Q;
     host_weapons := [bow] |}.

Definition attack : Action :=
  {| isAttack := true; isSkill := true;
     note_UseAmmo := false; note_StrictAmmo := false; note_MultiShot := false;
     StrictAmmo := None; MultiShot := None; LowAmmoAnimation := None;
     NoAmmoAnimation := None; successRate := 100;
     _overrideAnimationId := 0 |}.

(** A skill with [<MultiShot: n>] and the given success rate. *)
Definition volley (n : Z) (rate : Q) : Action :=
  {| isAttack := false; isSkill := true;
     note_UseAmmo := false; note_StrictAmmo := false; note_MultiShot := true;
     StrictAmmo := None; MultiShot := Some n; LowAmmoAnimation := None;
     NoAmmoAnimation := None; successRate := rate;
     _overrideAnimationId := 0 |}.

(** A skill with [<StrictAmmo: v>]. *)
Definition strictShot (v : Q) : Action :=
  {| isAttack := false; isSkill := true;
     note_UseAmmo := false; note_StrictAmmo := true; note_MultiShot := false;
     StrictAmmo := Some v; MultiShot := None; LowAmmoAnimation := None;
     NoAmmoAnimation := None; successRate := 100;
     _overrideAnimationId := 0 |}.

Definition hit : TargetResult := mkTarget true true true (fun _ => 0%Q).
Definition miss : TargetResult := mkTarget false true true (fun _ => 0%Q).

(** The archer about to shoot: a basic attack, or a volley of up to five
    arrows at a 90% success rate. *)
Definition attacking (n m : Z) : BattleManager World :=
  mkBM (inventory n m) (Some (BActor (archer (1 # 2)))) (Some attack).

Definition volleying (n m : Z) : BattleManager World :=
  mkBM (inventory n m) (Some (BActor (archer (1 # 2)))) (Some (volley 5 90)).

(** The state a Start hook left, with the world the host hands to the next
    hook in place of the one Start saw. *)
Definition resumeIn (w : World) (bm : BattleManager World)
  : BattleManager World :=
  mkBM w (_subject bm) (_action bm).

(** The state the Start hook leaves ([bm] itself should it throw), and the
    actor acting in a state. *)
Definition started (bm : BattleManager World) : BattleManager World :=
  match @startAction World demo bm with
  | Some bm1 => bm1
  | None => bm
  end.

Definition actorOf (bm : BattleManager World) : Actor :=
  match _subject bm with
  | Some (BActor a) => a
  | _ => archer 0
  end.

(** A skin of the bow whose [<DefaultWeaponId: 7>] names no weapon of the
    database. *)
Definition skin : Weapon :=
  {| weapon_Ammo := Some "Arrow"%string; weapon_DefaultWeaponId := Some 7;
     weapon_RangedHit := None; weapon_RangedCrit := None;
     weapon_animationId := 12 |}.

(** An actor as [initMembers] leaves it, holding the given weapons. *)
Definition recruit (ws : list Weapon) : Actor :=
  initMembers (fun _ => 0%Q) (fun _ => 0%Q) ws.

(** A skill with [<UseAmmo>] and [<NoAmmoAnimation: 99>]. *)
Definition aimedShot : Action :=
  {| isAttack := false; isSkill := true;
     note_UseAmmo := true; note_StrictAmmo := false; note_MultiShot := false;
     StrictAmmo := None; MultiShot := None; LowAmmoAnimation := None;
     NoAmmoAnimation := Some (99 # 1); successRate := 100;
     _overrideAnimationId := 0 |}.

(** The archer about to use the aimed shot. *)
Definition aiming (n m : Z) : BattleManager World :=
  mkBM (inventory n m) (Some (BActor (archer (1 # 2)))) (Some aimedShot).

(** A stand-in for [Number] that knows the two numerals of the help text's
    example [<LowAmmoAnimation: 5;120>]. *)
Definition numberOf (s : string) : option Q :=
  if String.eqb s "5" then Some (5 # 1)
  else if String.eqb s "120" then Some (120 # 1)
  else None.

End MV.

(** * Properties *)

Section Selector.

Context {W : Type} `{Host W}.

(** C7: for a category with no configured selection slot,
    [ensureValidAmmoSelected] returns null and the very world it was given
    (slot store and inventory untouched), and [hasValidAmmo] answers true. *)
Theorem ensureValidAmmoSelected_unslotted (w : W) (ty : option string) :
  unslotted ty ->
  ensureValidAmmoSelected w ty = (w, None) /\ hasValidAmmo w ty = true.
Proof.
  unfold ensureValidAmmoSelected, hasValidAmmo.
  intros [Hnone | Hzero].
  - rewrite Hnone. split; reflexivity.
  - rewrite Hzero. cbn. split; reflexivity.
Qed.

(** When the validity check fails: the category is slotted, and the party
    owns no item of the category. *)
Lemma hasValidAmmo_false (w : W) (ty : option string) :
  hasValidAmmo w ty = false ->
  (exists vid, getVariableIdForAmmoType ty = Some vid /\ vid <> 0)
  /\ findBestMatchingAmmoItem w ty = None.
Proof.
  unfold hasValidAmmo.
  destruct (getVariableIdForAmmoType ty) as [vid|]; [|discriminate].
  destruct (Z.eqb_spec vid 0) as [->|Hvid]; [discriminate|].
  cbv zeta. intros Hf. split; [exists vid; split; [reflexivity|assumption]|].
  destruct (findBestMatchingAmmoItem w ty); [|reflexivity].
  destruct (if 0 <? value w vid then dataItems (value w vid) else None);
    [destruct (_ && _)|]; discriminate.
Qed.

(** Conversely: a slotted category whose slot names no item and of which
    the party owns nothing has no valid ammo. *)
Lemma hasValidAmmo_empty (w : W) (ty : option string) (vid : Z) :
  getVariableIdForAmmoType ty = Some vid -> vid <> 0 ->
  value w vid <= 0 ->
  findBestMatchingAmmoItem w ty = None ->
  hasValidAmmo w ty = false.
Proof.
  intros Hv Hnz Hval Hbest. unfold hasValidAmmo. rewrite Hv.
  destruct (Z.eqb_spec vid 0); [contradiction|]. cbv zeta.
  destruct (Z.ltb_spec 0 (value w vid)); [lia|].
  now rewrite Hbest.
Qed.

(** A valid earlier selection is returned and nothing is written. *)
Lemma ensureValidAmmoSelected_keeps (w : W) (ty : option string) (vid : Z)
    (it : Item) :
  getVariableIdForAmmoType ty = Some vid -> vid <> 0 ->
  0 < value w vid -> dataItems (value w vid) = Some it ->
  JS.streq (item_Ammo it) ty = true -> hasItem w it = true ->
  ensureValidAmmoSelected w ty = (w, Some it).
Proof.
  intros Hv Hnz Hpos Hd Hs Hh. unfold ensureValidAmmoSelected.
  rewrite Hv. destruct (Z.eqb_spec vid 0); [contradiction|].
  cbv zeta. destruct (Z.ltb_spec 0 (value w vid)); [|lia].
  rewrite Hd, Hs, Hh. reflexivity.
Qed.

End Selector.

Section HitCheck.

Context {W : Type} `{Host W}.

(** C5: for a skill with a [StrictAmmo] rate, used by an actor whose first
    weapon names an ammo type for which the validity check fails, [itemHit]
    returns the rate divided by 100 whatever the target and whatever the
    wrapped hit computation gives. *)
Theorem itemHit_strict_fallback {T : Type} (host_itemHit : T -> Q) (w : W)
    (subject : Actor) (action : Action) (target : T) (strictAmmoValue : Q)
    (weapon : Weapon) (others : list Weapon) :
  isSkill action = true ->
  StrictAmmo action = Some strictAmmoValue ->
  weapons w subject = weapon :: others ->
  JS.truthy (weapon_Ammo weapon) = true ->
  hasValidAmmo w (weapon_Ammo weapon) = false ->
  itemHit host_itemHit w (Some (BActor subject)) action target
  = (strictAmmoValue / 100)%Q.
Proof.
  intros Hskill Hstrict Hweapons Hty Hinvalid. unfold itemHit.
  rewrite Hskill, Hstrict, Hweapons. cbv zeta.
  rewrite Hty, Hinvalid. reflexivity.
Qed.

End HitCheck.

Section Consumption.

Context {W : Type} `{Host W}.

Lemma set_ammoToConsumeCount_same (a : Actor) :
  set_ammoToConsumeCount a (_ammoToConsumeCount a) = a.
Proof. destruct a; reflexivity. Qed.

Lemma apply_hit_pending (bm : BattleManager W) (subject : Actor)
    (target : TargetResult) :
  _subject bm = Some (BActor subject) ->
  _isApplyingTempAmmoParams subject = true ->
  result_isHit target = true ->
  0 < _ammoToConsumeCount subject ->
  fst (Game_Action_apply bm target)
  = mkBM (commitConsumption (world bm) subject (_ammoToConsumeCount subject))
         (Some (BActor (set_ammoToConsumeCount subject 0))) (_action bm).
Proof.
  intros Hs Ha Hh Hc. unfold Game_Action_apply, commitConsumption.
  rewrite Hs, Ha, Hh.
  destruct (Z.ltb_spec 0 (_ammoToConsumeCount subject)); [|lia].
  reflexivity.
Qed.

Lemma apply_miss (bm : BattleManager W) (subject : Actor)
    (target : TargetResult) :
  _subject bm = Some (BActor subject) ->
  _isApplyingTempAmmoParams subject = true ->
  result_isHit target = false ->
  fst (Game_Action_apply bm target)
  = mkBM (world bm) (Some (BActor (set_ammoToConsumeCount subject 0)))
         (_action bm).
Proof.
  intros Hs Ha Hh. unfold Game_Action_apply. rewrite Hs, Ha, Hh. reflexivity.
Qed.

(** Once the pending count is zero, further Apply calls change nothing. *)
Lemma apply_spent (bm : BattleManager W) (subject : Actor)
    (target : TargetResult) :
  _subject bm = Some (BActor subject) ->
  _ammoToConsumeCount subject = 0 ->
  fst (Game_Action_apply bm target) = bm.
Proof.
  intros Hs Hc. unfold Game_Action_apply. rewrite Hs.
  destruct (_isApplyingTempAmmoParams subject); [|reflexivity].
  destruct (result_isHit target).
  - rewrite Hc. reflexivity.
  - cbn. rewrite <- Hc, set_ammoToConsumeCount_same, <- Hs.
    destruct bm; reflexivity.
Qed.

Lemma applyTargets_spent (targets : list TargetResult) (bm : BattleManager W)
    (subject : Actor) :
  _subject bm = Some (BActor subject) ->
  _ammoToConsumeCount subject = 0 ->
  applyTargets bm targets = bm.
Proof.
  induction targets as [|t ts IH]; intros Hs Hc; [reflexivity|].
  cbn [applyTargets]. rewrite (apply_spent bm subject t Hs Hc).
  exact (IH Hs Hc).
Qed.

Lemma applyTargets_first_miss (bm : BattleManager W) (subject : Actor)
    (target : TargetResult) (rest : list TargetResult) :
  _subject bm = Some (BActor subject) ->
  _isApplyingTempAmmoParams subject = true ->
  result_isHit target = false ->
  applyTargets bm (target :: rest)
  = mkBM (world bm) (Some (BActor (set_ammoToConsumeCount subject 0)))
         (_action bm).
Proof.
  intros Hs Ha Hh. cbn [applyTargets].
  rewrite (apply_miss bm subject target Hs Ha Hh).
  apply applyTargets_spent with (set_ammoToConsumeCount subject 0);
    reflexivity.
Qed.

(** C9: when the Apply hook of an armed actor's action meets at least one
    missed target before the first hit target, the pending count is zeroed
    by the miss, and the whole action leaves the world (inventory and slots)
    as it was although a later target is hit. *)
Theorem miss_before_hit_deducts_nothing (bm : BattleManager W)
    (subject : Actor) (missed : TargetResult)
    (misses : list TargetResult) (hitTarget : TargetResult)
    (later : list TargetResult) :
  _subject bm = Some (BActor subject) ->
  _isApplyingTempAmmoParams subject = true ->
  allMiss (missed :: misses) ->
  result_isHit hitTarget = true ->
  let bm' := applyTargets bm ((missed :: misses) ++ hitTarget :: later) in
  world bm' = world bm
  /\ _subject bm' = Some (BActor (set_ammoToConsumeCount subject 0))
  /\ _subject (fst (Game_Action_apply bm missed))
     = Some (BActor (set_ammoToConsumeCount subject 0)).
Proof.
  intros Hs Ha Hmiss _ bm'. subst bm'.
  inversion Hmiss as [|x l Hm _]; subst.
  cbn [app]. rewrite (applyTargets_first_miss bm subject missed _ Hs Ha Hm).
  rewrite (apply_miss bm subject missed Hs Ha Hm). cbn. auto.
Qed.

(** C1 (as amended): for an armed actor with a positive pending count [n]
    whose first weapon's ammo type still selects an item [it], the Apply
    calls of one action (one per target, at least one) deduct at most once:
    when the first delivered result is a hit the world ends as the one where
    [it] lost exactly [n] units, once, however many targets follow; when the
    first result is a miss (so also when every result is a miss) the world
    is unchanged; in both cases the pending count ends at zero. *)
Theorem consumption_decided_by_first_result (bm : BattleManager W)
    (subject : Actor) (first : TargetResult) (rest : list TargetResult)
    (weapon : Weapon) (others : list Weapon) (w1 : W) (it : Item) :
  _subject bm = Some (BActor subject) ->
  _isApplyingTempAmmoParams subject = true ->
  0 < _ammoToConsumeCount subject ->
  weapons (world bm) subject = weapon :: others ->
  ensureValidAmmoSelected (world bm) (weapon_Ammo weapon) = (w1, Some it) ->
  let bm' := applyTargets bm (first :: rest) in
  _subject bm' = Some (BActor (set_ammoToConsumeCount subject 0))
  /\ world bm'
     = if result_isHit first
       then loseItem it (_ammoToConsumeCount subject) w1
       else world bm.
Proof.
  intros Hs Ha Hc Hw He bm'. subst bm'.
  destruct (result_isHit first) eqn:Hh.
  - cbn [applyTargets]. rewrite (apply_hit_pending bm subject first Hs Ha Hh Hc).
    rewrite applyTargets_spent with (subject := set_ammoToConsumeCount subject 0);
      [|reflexivity|reflexivity].
    unfold commitConsumption. rewrite Hw, He. cbn. auto.
  - rewrite (applyTargets_first_miss bm subject first rest Hs Ha Hh).
    cbn; auto.
Qed.

End Consumption.

Section Lifecycle.

Context {W : Type} `{Host W}.

Lemma initMembers_cleared (pp xp : Z -> Q) (ws : list Weapon) :
  overlayCleared (initMembers pp xp ws) /\ copiesPaired (initMembers pp xp ws).
Proof. unfold overlayCleared, copiesPaired; cbn; tauto. Qed.

Lemma resetAmmoEffects_cleared (a : Actor) : overlayCleared (resetAmmoEffects a).
Proof. unfold overlayCleared; cbn; tauto. Qed.

(** Resetting twice is resetting once. *)
Lemma resetAmmoEffects_idempotent (a : Actor) :
  resetAmmoEffects (resetAmmoEffects a) = resetAmmoEffects a.
Proof.
  unfold resetAmmoEffects; cbn. destruct (_originalWeaponData a); reflexivity.
Qed.

Lemma resetAmmoEffects_restores (a : Actor) :
  copiesPaired a ->
  _battleWeapon (resetAmmoEffects a) = _originalWeaponData a.
Proof.
  unfold copiesPaired; cbn. destruct (_originalWeaponData a); [reflexivity|].
  intros [_ Hb]. now apply Hb.
Qed.

Lemma resetAmmoEffects_pristine (a : Actor) :
  _originalWeaponData (resetAmmoEffects a) = _originalWeaponData a.
Proof. reflexivity. Qed.

Lemma resetAmmoEffects_count (a : Actor) (n : Z) :
  resetAmmoEffects (set_ammoToConsumeCount a n) = resetAmmoEffects a.
Proof. reflexivity. Qed.

Lemma setupBattleWeapon_paired (a a' : Actor) :
  setupBattleWeapon a = Some a' -> copiesPaired a'.
Proof.
  unfold setupBattleWeapon, copiesPaired.
  destruct (host_weapons a) as [|weapon ?].
  - intros [= <-]; cbn; tauto.
  - cbv zeta.
    destruct (match weapon_DefaultWeaponId weapon with
              | Some i => if i =? 0 then Some weapon else dataWeapons i
              | None => Some weapon
              end); [|discriminate].
    intros [= <-]; cbn. split; discriminate.
Qed.

(** [applyAmmoEffects] touches neither weapon copy. *)
Lemma applyAmmoEffects_copies (w : W) (a a' : Actor) (ammoItem : option Item)
    (action : Action) :
  applyAmmoEffects w a ammoItem action = Some a' ->
  _battleWeapon a' = _battleWeapon a
  /\ _originalWeaponData a' = _originalWeaponData a.
Proof.
  unfold applyAmmoEffects. destruct ammoItem as [ammo|].
  - cbv zeta. destruct (_battleWeapon a) as [bw|] eqn:Hb.
    + destruct (MultiShot action) as [n|];
        [destruct (0 <? n);
         [destruct (0 <? Z.min n (numItems w ammo))|]|];
        intros [= <-]; cbn; auto.
    + destruct (MultiShot action) as [n|];
        [destruct (0 <? n);
         [destruct (0 <? Z.min n (numItems w ammo))|]|];
        discriminate.
  - intros [= <-]; auto.
Qed.

(** What the Start hook does to the subject's weapon copies: the pristine
    copy is kept, and the working copy stays present or absent with it. *)
Lemma startAction_copies (bm bm1 : BattleManager W) (subject subject1 : Actor) :
  _subject bm = Some (BActor subject) ->
  copiesPaired subject ->
  startAction bm = Some bm1 ->
  _subject bm1 = Some (BActor subject1) ->
  _originalWeaponData subject1 = _originalWeaponData subject
  /\ copiesPaired subject1.
Proof.
  intros Hs Hp. unfold startAction. rewrite Hs.
  destruct (_action bm) as [action|];
    [|intros [= <-]; rewrite Hs; intros [= <-]; auto].
  destruct (weapons (world bm) subject) as [|weapon ?];
    [intros [= <-]; rewrite Hs; intros [= <-]; auto|].
  cbv zeta.
  destruct (JS.truthy (weapon_Ammo weapon) && _);
    [|intros [= <-]; rewrite Hs; intros [= <-]; auto].
  destruct (ensureValidAmmoSelected (world bm) (weapon_Ammo weapon))
    as [w1 [ammo|]].
  - destruct (applyAmmoEffects w1 (resetAmmoEffects subject) (Some ammo) action)
      as [subject2|] eqn:Happ; [|discriminate].
    apply applyAmmoEffects_copies in Happ. destruct Happ as [Hb Ho].
    rewrite resetAmmoEffects_pristine in Ho.
    rewrite (resetAmmoEffects_restores subject Hp) in Hb.
    assert (Hp2 : copiesPaired subject2)
      by (unfold copiesPaired; rewrite Hb, Ho; tauto).
    destruct (isAttack action).
    + intros [= <-]; cbn. intros [= <-].
      destruct (item_AmmoAnimation ammo) as [id|]; [|auto].
      destruct (_battleWeapon subject2) eqn:Hbw; [|auto].
      destruct (negb (Qeq_bool id 0)); [|auto].
      cbn. split; [assumption|].
      unfold copiesPaired; cbn. rewrite Ho, <- Hb. split; discriminate.
    + destruct (isSkill action); intros [= <-]; cbn; intros [= <-]; auto.
  - intros [= <-]; cbn. intros [= <-]. split; [reflexivity|].
    unfold copiesPaired.
    rewrite (resetAmmoEffects_restores subject Hp), resetAmmoEffects_pristine.
    tauto.
Qed.

(** The Apply hook changes nothing of the subject but the pending count. *)
Lemma Game_Action_apply_subject (bm : BattleManager W) (subject : Actor)
    (target : TargetResult) :
  _subject bm = Some (BActor subject) ->
  exists n, _subject (fst (Game_Action_apply bm target))
            = Some (BActor (set_ammoToConsumeCount subject n)).
Proof.
  intros Hs. unfold Game_Action_apply. rewrite Hs.
  assert (Hsame : exists n, _subject bm
                            = Some (BActor (set_ammoToConsumeCount subject n))).
  { exists (_ammoToConsumeCount subject).
    now rewrite set_ammoToConsumeCount_same. }
  destruct (_isApplyingTempAmmoParams subject); [|exact Hsame].
  destruct (result_isHit target).
  - destruct (0 <? _ammoToConsumeCount subject); [|exact Hsame].
    now exists 0.
  - now exists 0.
Qed.

Lemma applyTargets_subject (targets : list TargetResult)
    (bm : BattleManager W) (subject : Actor) :
  _subject bm = Some (BActor subject) ->
  exists n, _subject (applyTargets bm targets)
            = Some (BActor (set_ammoToConsumeCount subject n)).
Proof.
  revert bm subject.
  induction targets as [|t ts IH]; intros bm subject Hs.
  - exists (_ammoToConsumeCount subject).
    now rewrite set_ammoToConsumeCount_same.
  - cbn [applyTargets].
    destruct (Game_Action_apply_subject bm subject t Hs) as [n Hn].
    destruct (IH _ _ Hn) as [m Hm]. exists m. exact Hm.
Qed.

(** The pairing of the two weapon copies survives the Apply and End hooks:
    with [initMembers_cleared], [setupBattleWeapon_paired] and
    [startAction_copies] it holds all through a battle. *)
Lemma applyTargets_paired (targets : list TargetResult) (bm : BattleManager W)
    (subject subject' : Actor) :
  _subject bm = Some (BActor subject) ->
  copiesPaired subject ->
  _subject (applyTargets bm targets) = Some (BActor subject') ->
  copiesPaired subject'.
Proof.
  intros Hs Hp Hs'.
  destruct (applyTargets_subject targets bm subject Hs) as [n Hn].
  rewrite Hn in Hs'. injection Hs' as <-. exact Hp.
Qed.

Lemma endAction_paired (bm : BattleManager W) (subject subject' : Actor) :
  _subject bm = Some (BActor subject) ->
  copiesPaired subject ->
  _subject (endAction bm) = Some (BActor subject') ->
  copiesPaired subject'.
Proof.
  intros Hs Hp. unfold endAction. rewrite Hs. cbn.
  destruct (_isApplyingTempAmmoParams subject); intros [= <-]; [|exact Hp].
  unfold copiesPaired.
  rewrite (resetAmmoEffects_restores subject Hp), resetAmmoEffects_pristine.
  tauto.
Qed.

(** C6: when the Start hook arms the subject's overlay, then after any
    number of Apply calls, none included (the action was aborted before
    Apply), the End hook leaves the subject unarmed with every delta zeroed,
    the pending count zero and the working weapon copy equal to the pristine
    copy, which is the one from before the action; the next action of the
    combatant therefore starts from an unarmed overlay. *)
Theorem endAction_resets_armed_overlay (bm bm1 : BattleManager W)
    (subject subject1 : Actor) (targets : list TargetResult) :
  _subject bm = Some (BActor subject) ->
  copiesPaired subject ->
  startAction bm = Some bm1 ->
  _subject bm1 = Some (BActor subject1) ->
  _isApplyingTempAmmoParams subject1 = true ->
  exists subject3,
    _subject (endAction (applyTargets bm1 targets)) = Some (BActor subject3)
    /\ overlayCleared subject3
    /\ _battleWeapon subject3 = _originalWeaponData subject3
    /\ _originalWeaponData subject3 = _originalWeaponData subject.
Proof.
  intros Hs Hp Hstart Hs1 Harmed.
  destruct (startAction_copies bm bm1 subject subject1 Hs Hp Hstart Hs1)
    as [Ho Hp1].
  destruct (applyTargets_subject targets bm1 subject1 Hs1) as [n Hn].
  exists (resetAmmoEffects subject1).
  unfold endAction. rewrite Hn. cbn. rewrite Harmed. cbn.
  split; [reflexivity|]. split; [apply resetAmmoEffects_cleared|].
  split; [|exact Ho].
  exact (resetAmmoEffects_restores subject1 Hp1).
Qed.

End Lifecycle.

Section Compositor.

Context {W : Type} `{Host W}.

Lemma ltb_true (x y : Q) : JS.ltb x y = true <-> (x < y)%Q.
Proof.
  unfold JS.ltb. rewrite negb_true_iff, <- not_true_iff_false, Qle_bool_iff.
  split; [apply Qnot_le_lt | apply Qlt_not_le].
Qed.

Lemma ltb_false (x y : Q) : JS.ltb x y = false <-> (y <= x)%Q.
Proof. unfold JS.ltb. rewrite negb_false_iff. apply Qle_bool_iff. Qed.

(** The multi-shot branch, when something is fired. *)
Lemma applyAmmoEffects_multiShot (w : W) (a : Actor) (ammoItem : Item)
    (action : Action) (multiShotCount : Z) (bw : Weapon) :
  MultiShot action = Some multiShotCount ->
  _battleWeapon a = Some bw ->
  let numShots := Z.min multiShotCount (numItems w ammoItem) in
  1 <= numShots ->
  exists a',
    applyAmmoEffects w a (Some ammoItem) action = Some a'
    /\ _tempAmmoAtk a'
       = inject_Z
           (multiShotAtk numShots (JS.or0 (item_AmmoAtk ammoItem))
              (singleShotHitChance (xparam a 0)
                 (JS.or0 (weapon_RangedHit bw) / 100)
                 (JS.or0 (item_AmmoHitRate ammoItem) / 100)
                 (successRate action / 100)))
    /\ _tempAmmoHit a'
       = multiShotRateBonus w ammoItem action numShots
           (JS.or0 (item_AmmoHitRate ammoItem))
           (JS.or0 (item_AmmoHitRate ammoItem) / 100) (75 # 100) (1 # 2)
    /\ _ammoToConsumeCount a' = numShots
    /\ _isApplyingTempAmmoParams a' = true.
Proof.
  intros HN Hbw numShots Hshots. unfold applyAmmoEffects.
  rewrite HN, Hbw. cbv zeta. fold numShots.
  destruct (Z.ltb_spec 0 multiShotCount); [|lia].
  destruct (Z.ltb_spec 0 numShots); [|lia].
  eexists. split; [reflexivity|]. cbn. auto.
Qed.

(** The source's low-stock test is the specification's choice of modifier. *)
Lemma lowAmmo_modifier (w : W) (ammoItem : Item) (action : Action) :
  ((if lowAmmo w ammoItem action then 1 # 2 else 75 # 100)
   == Spec.hitModifier (option_map quantity (LowAmmoAnimation action))
        (numItems w ammoItem))%Q.
Proof.
  unfold lowAmmo, Spec.hitModifier.
  destruct (LowAmmoAnimation action) as [info|]; cbn; [|reflexivity].
  destruct (JS.ltb _ _); reflexivity.
Qed.

Lemma hitModifier_positive (threshold : option Q) (owned : Z) :
  (0 < Spec.hitModifier threshold owned)%Q.
Proof.
  unfold Spec.hitModifier.
  destruct threshold as [t|]; [destruct (JS.ltb (inject_Z owned) t)|];
    reflexivity.
Qed.

End Compositor.

Section MultiShotCurve.

Lemma Qpower_below_one (q : Q) (k : Z) :
  (0 < q)%Q -> (q < 1)%Q -> 0 < k -> (q ^ k < 1)%Q.
Proof.
  intros Hq0 Hq1 Hk.
  assert (Hpos : (0 < q ^ k)%Q) by now apply Qpower_0_lt.
  assert (Hinv : (1 < / q)%Q).
  { apply Qlt_shift_inv_l; [assumption|]. now rewrite Qmult_1_l. }
  pose proof (Qpower_1_lt (/ q) k Hinv Hk) as Hbig.
  rewrite Qinv_power in Hbig.
  apply (Qinv_lt_contravar (q ^ k) 1 Hpos); [reflexivity|exact Hbig].
Qed.

Lemma Qpower_decreasing (q : Q) (n m : Z) :
  (0 < q)%Q -> (q < 1)%Q -> 0 <= n < m -> (q ^ m < q ^ n)%Q.
Proof.
  intros Hq0 Hq1 [Hn Hnm].
  replace m with (n + (m - n)) by ring.
  rewrite Qpower_plus by (intros E; rewrite E in Hq0; discriminate).
  rewrite <- (Qmult_1_r (q ^ n)) at 2.
  apply Qmult_lt_l; [now apply Qpower_0_lt|].
  apply Qpower_below_one; [assumption..|lia].
Qed.

Lemma probAtLeastOneHit_increasing (p : Q) (n m : Z) :
  (0 < p)%Q -> (p < 1)%Q -> 0 <= n < m ->
  (probAtLeastOneHit p n < probAtLeastOneHit p m)%Q.
Proof.
  intros Hp0 Hp1 Hnm. unfold probAtLeastOneHit, JS.pow.
  assert (Hpow : ((1 - p) ^ m < (1 - p) ^ n)%Q)
    by (apply Qpower_decreasing; [lra|lra|assumption]).
  lra.
Qed.

Lemma probAtLeastOneHit_nonneg (p : Q) (n : Z) :
  (0 < p)%Q -> (p < 1)%Q -> 0 <= n -> (0 <= probAtLeastOneHit p n)%Q.
Proof.
  intros Hp0 Hp1 Hn. unfold probAtLeastOneHit, JS.pow.
  destruct (Z.eq_dec n 0) as [->|Hnz].
  - cbn. lra.
  - assert (Hpow : ((1 - p) ^ n < 1)%Q)
      by (apply Qpower_below_one; [lra|lra|lia]).
    lra.
Qed.

Lemma round_monotone (x y : Q) : (x <= y)%Q -> JS.round x <= JS.round y.
Proof. intros Hxy. unfold JS.round. apply Qfloor_resp_le. lra. Qed.

(** C8 (as amended): for a per-shot hit probability [p] in (0,1) the
    probability of at least one hit, [1 - (1-p)^shots], never decreases when
    the number of shots grows, and for a flat attack bonus that is not
    negative the attack delta [round(shots * flat * P(shots))] never
    decreases when the number of shots grows. The probability grows
    strictly when [p] is at least [0.01], the least chance
    [singleShotHitChance] lets through, as long as [(1-p)^shots] stays at
    or above [2^-30], where doubles resolve it against 1. *)
Theorem multiShot_monotone (p : Q) :
  (0 < p)%Q -> (p < 1)%Q ->
  (forall n m : Z, 0 <= n <= m ->
     (probAtLeastOneHit p n <= probAtLeastOneHit p m)%Q)
  /\ (forall n m : Z, 0 <= n < m ->
        (1 # 100 <= p)%Q ->
        ((1 # 2) ^ 30 <= (1 - p) ^ m)%Q ->
        (probAtLeastOneHit p n < probAtLeastOneHit p m)%Q)
  /\ (forall (flat : Q) (n m : Z), (0 <= flat)%Q -> 0 <= n <= m ->
        multiShotAtk n flat p <= multiShotAtk m flat p).
Proof.
  intros Hp0 Hp1.
  assert (Hmono : forall n m : Z, 0 <= n <= m ->
            (probAtLeastOneHit p n <= probAtLeastOneHit p m)%Q).
  { intros n m [Hn Hnm]. destruct (Z.eq_dec n m) as [->|Hne]; [lra|].
    apply Qlt_le_weak, probAtLeastOneHit_increasing; [assumption..|lia]. }
  split; [exact Hmono|]. split.
  - intros n m Hnm _ _. now apply probAtLeastOneHit_increasing.
  - intros flat n m Hflat [Hn Hnm]. unfold multiShotAtk.
    apply round_monotone.
    assert (HPn : (0 <= probAtLeastOneHit p n)%Q)
      by now apply probAtLeastOneHit_nonneg.
    assert (HP : (probAtLeastOneHit p n <= probAtLeastOneHit p m)%Q)
      by (apply Hmono; lia).
    assert (Hz : (inject_Z n <= inject_Z m)%Q) by (rewrite <- Zle_Qle; lia).
    assert (Hz0 : (0 <= inject_Z n)%Q)
      by (change 0%Q with (inject_Z 0); rewrite <- Zle_Qle; lia).
    apply Qmult_le_compat_nonneg; [split|split]; try assumption.
    + apply Qmult_le_0_compat; assumption.
    + apply Qmult_le_compat_r; assumption.
Qed.

End MultiShotCurve.

(** ** The Modifier Compositor on multi-shot actions *)

(** C2 (as amended): for a multi-shot action with [shots = min(N, owned)] at
    least 1, with moderate inputs ([Ideal.moderate]) and with the exact
    product [shots * flatAttackBonus * P] at least [1/1024] away from the
    ties of the rounding ([Ideal.clearOfTies]), [applyAmmoEffects] sets the
    attack delta to [round(shots * flatAttackBonus * P)] with
    [P = 1 - (1-p)^shots], where the per-shot probability is
    [p = clamp((baseHit + rangedHit + ammoHit) * (successRate/100), 0.01, 0.95)]:
    the sum is scaled by the success rate first and the product is clamped.
    Within [1/1024] of a tie the program's doubles can round to the other
    neighbour, and nothing is stated. On unit count 5, owned 3, base hit
    0.5, ranged-hit 10%, ammo-hit 20%, success rate 90%, flat attack 8, the
    delta is 23. *)
Theorem multiShot_attack_delta :
  (forall (W : Type) (HW : Host W) (w : W) (a : Actor) (ammoItem : Item)
          (action : Action) (N : Z) (bw : Weapon),
      MultiShot action = Some N ->
      _battleWeapon a = Some bw ->
      let shots := Z.min N (numItems w ammoItem) in
      1 <= shots ->
      let baseHit := xparam a 0 in
      let rangedHit := (JS.or0 (weapon_RangedHit bw) / 100)%Q in
      let ammoHit := (JS.or0 (item_AmmoHitRate ammoItem) / 100)%Q in
      let flat := JS.or0 (item_AmmoAtk ammoItem) in
      let p := Spec.clamp
                 ((baseHit + rangedHit + ammoHit)
                  * (successRate action / 100))
                 (1 # 100) (95 # 100) in
      Ideal.moderate baseHit rangedHit ammoHit (successRate action)
        (inject_Z shots * flat) ->
      Ideal.clearOfTies (inject_Z shots * flat * Spec.P p shots) ->
      exists a',
        applyAmmoEffects w a (Some ammoItem) action = Some a'
        /\ _tempAmmoAtk a' = inject_Z (Spec.attackDelta shots flat p))
  /\ option_map _tempAmmoAtk
       (@applyAmmoEffects MV.World MV.demo (MV.inventory 3 0)
          (MV.archer (1 # 2)) (Some MV.arrow) (MV.volley 5 90))
     = Some 23%Q.
Proof.
  split; [|vm_compute; reflexivity].
  intros W HW w a ammoItem action N bw HN Hbw shots Hshots
         baseHit rangedHit ammoHit flat p _ _.
  destruct (applyAmmoEffects_multiShot w a ammoItem action N bw HN Hbw Hshots)
    as (a' & Happ & Hatk & _).
  exists a'. split; [exact Happ|]. exact Hatk.
Qed.

(** C4: for a multi-shot action with [shots >= 1] and a consumable hit bonus
    [H > 0], the hit-rate delta [applyAmmoEffects] stores is
    [(a * (1 - 0.5^shots) / (1 - 0.5)) / 100] with [a = H * m], where [m] is
    0.5 when a low-stock threshold is configured and the owned count is
    below it and 0.75 otherwise; for [H = 0] the delta is 0; with [H = 20],
    no threshold and 3 shots the delta is 0.2625. *)
Theorem multiShot_hit_rate_delta :
  (forall (W : Type) (HW : Host W) (w : W) (a : Actor) (ammoItem : Item)
          (action : Action) (N : Z) (bw : Weapon),
      MultiShot action = Some N ->
      _battleWeapon a = Some bw ->
      let owned := numItems w ammoItem in
      let shots := Z.min N owned in
      1 <= shots ->
      let H := JS.or0 (item_AmmoHitRate ammoItem) in
      let m := Spec.hitModifier
                 (option_map quantity (LowAmmoAnimation action)) owned in
      exists a',
        applyAmmoEffects w a (Some ammoItem) action = Some a'
        /\ ((0 < H)%Q ->
            (_tempAmmoHit a' == Spec.hitRateDeltaPct H m shots / 100)%Q)
        /\ ((H == 0)%Q -> (_tempAmmoHit a' == 0)%Q))
  /\ (exists a',
        @applyAmmoEffects MV.World MV.demo (MV.inventory 3 0)
          (MV.archer (1 # 2)) (Some MV.arrow) (MV.volley 5 90) = Some a'
        /\ (_tempAmmoHit a' == 2625 # 10000)%Q).
Proof.
  split; [|eexists; split; [vm_compute; reflexivity|vm_compute; reflexivity]].
  intros W HW w a ammoItem action N bw HN Hbw owned shots Hshots H m.
  destruct (applyAmmoEffects_multiShot w a ammoItem action N bw HN Hbw Hshots)
    as (a' & Happ & _ & Hhit & _).
  exists a'. split; [exact Happ|]. fold owned shots H in Hhit.
  rewrite Hhit. unfold multiShotRateBonus. split.
  - intros HH. apply ltb_true in HH. rewrite HH.
    pose proof (lowAmmo_modifier w ammoItem action) as Hm.
    fold owned m in Hm.
    assert (Hmpos : (0 < m)%Q) by apply hitModifier_positive.
    set (m0 := if lowAmmo w ammoItem action then 1 # 2 else 75 # 100) in *.
    assert (Ha : JS.ltb 0 (H * m0) = true).
    { apply ltb_true. rewrite Hm. apply Qmult_lt_0_compat; [|exact Hmpos].
      now apply ltb_true. }
    rewrite Ha. unfold totalBonus, Spec.hitRateDeltaPct, JS.pow.
    rewrite Hm. reflexivity.
  - intros HH.
    assert (Hn : JS.ltb 0 H = false) by (apply ltb_false; rewrite HH; apply Qle_refl).
    rewrite Hn, HH. reflexivity.
Qed.

(** ** Consumption at the Apply hook *)

(** C10: on a hit with a positive pending count, the Apply hook of an armed
    actor calls [ensureValidAmmoSelected] again for the first weapon's ammo
    type and deducts from the item that call returns, in the world that call
    leaves; so the hit can write the selection slot, and the item deducted
    can differ from the one whose modifiers the Start hook computed. This
    happens when the archer armed with the last arrow meets, at Apply, a
    world where that arrow is gone: the slot is rewritten to the fire arrow
    and a fire arrow is deducted, while the overlay still holds the arrow's
    attack bonus. *)
Theorem apply_commit_reselects :
  (forall (W : Type) (HW : Host W) (bm : BattleManager W) (subject : Actor)
          (target : TargetResult) (weapon : Weapon) (others : list Weapon),
      _subject bm = Some (BActor subject) ->
      _isApplyingTempAmmoParams subject = true ->
      result_isHit target = true ->
      0 < _ammoToConsumeCount subject ->
      weapons (world bm) subject = weapon :: others ->
      world (fst (Game_Action_apply bm target))
      = let (w1, ammoItem) :=
          ensureValidAmmoSelected (world bm) (weapon_Ammo weapon) in
        match ammoItem with
        | Some it => loseItem it (_ammoToConsumeCount subject) w1
        | None => w1
        end)
  /\ (exists (bm1 : BattleManager MV.World) (subject1 : Actor),
        @startAction _ MV.demo (MV.attacking 1 2) = Some bm1
        /\ _subject bm1 = Some (BActor subject1)
        /\ _tempAmmoAtk subject1 = JS.or0 (item_AmmoAtk MV.arrow)
        /\ @value _ MV.demo (world bm1) 10 = item_id MV.arrow
        /\ let w2 := MV.inventory 0 2 in
           let bm3 := fst (@Game_Action_apply _ MV.demo
                             (MV.resumeIn w2 bm1) MV.hit) in
           @value _ MV.demo (world bm3) 10 = item_id MV.fireArrow
           /\ @numItems _ MV.demo (world bm3) MV.fireArrow
              = @numItems _ MV.demo w2 MV.fireArrow - 1
           /\ @numItems _ MV.demo (world bm3) MV.arrow
              = @numItems _ MV.demo w2 MV.arrow).
Proof.
  split.
  - intros W HW bm subject target weapon others Hs Ha Hh Hc Hw.
    rewrite (apply_hit_pending bm subject target Hs Ha Hh Hc). cbn.
    unfold commitConsumption. rewrite Hw. reflexivity.
  - eexists. eexists. split; [vm_compute; reflexivity|].
    split; [reflexivity|]. vm_compute. auto 10.
Qed.

(** ** Where the specification and the plugin part *)

(** C1 fails as stated: the archer's basic attack is armed with a pending
    count of 1; the first target is missed, the second is hit, and no arrow
    is deducted. *)
Lemma consumption_lost_after_miss :
  exists (bm1 : BattleManager MV.World) (subject1 : Actor),
    @startAction _ MV.demo (MV.attacking 3 2) = Some bm1
    /\ _subject bm1 = Some (BActor subject1)
    /\ _isApplyingTempAmmoParams subject1 = true
    /\ _ammoToConsumeCount subject1 = 1
    /\ existsb result_isHit [MV.miss; MV.hit] = true
    /\ world (@applyTargets _ MV.demo bm1 [MV.miss; MV.hit]) = world bm1
    /\ world bm1 <> @loseItem _ MV.demo MV.arrow 1 (world bm1).
Proof.
  eexists. eexists. split; [vm_compute; reflexivity|].
  split; [reflexivity|]. vm_compute. repeat split; discriminate.
Qed.

Section InDoubles.

Import PrimFloat.
#[local] Set Warnings "-inexact-float".
Local Open Scope float_scope.

(** C8 fails as stated: in the program's doubles, at [p = 0.95], thirteen
    shots and fourteen shots both give a probability of exactly 1:
    [0.05^13] is about [1.2e-17], below half the distance [2^-53] from 1 to
    the double before it. Twelve shots still give less than 1. *)
Lemma doubles_saturate_at_thirteen_shots :
  Double.probAtLeastOneHit 0.95 13 = Double.probAtLeastOneHit 0.95 14
  /\ Double.probAtLeastOneHit 0.95 13 = 1
  /\ (Double.probAtLeastOneHit 0.95 12 <? 1) = true.
Proof. repeat split; vm_compute; reflexivity. Qed.

(** Why C2 keeps clear of the ties: with base hit 0, ranged-hit 10%, one
    shot, success rate 100% and flat attack 5 the exact product is the tie
    [1/2], which rounds to 1, and the program's doubles give a product
    below [0.5], which [Math.round] takes to 0. *)
Remark doubles_fall_short_of_a_tie :
  multiShotAtk 1 5 (singleShotHitChance 0 (10 / 100) 0 (100 / 100)) = 1%Z
  /\ (Double.volleyProduct 1 5
        (Double.singleShotHitChance 0 (10 / 100) 0 (100 / 100))
      <? 0.5) = true.
Proof. split; vm_compute; reflexivity. Qed.

(** The upper bound of X13 is reached by the program's doubles: from 54
    shots on [1 - 0.5^n] is 1 and the bonus is [2a]. *)
Remark doubles_reach_twice_the_bonus :
  Double.totalBonus 15 54 = 30
  /\ (Double.totalBonus 15 53 <? 30) = true.
Proof. split; vm_compute; reflexivity. Qed.

End InDoubles.

(** C2 fails as stated: with base hit 0.9, ranged-hit 10%, ammo-hit 20%,
    success rate 50%, two shots and flat attack 8, the plugin clamps the
    product [1.2 * 0.5 = 0.6] and stores 13, where clamping the sum first
    ([0.95 * 0.5 = 0.475]) gives 12. *)
Lemma attack_delta_clamps_the_product :
  option_map _tempAmmoAtk
    (@applyAmmoEffects _ MV.demo (MV.inventory 2 0) (MV.archer (9 # 10))
       (Some MV.arrow) (MV.volley 5 50)) = Some 13%Q
  /\ Spec.attackDelta 2 8
       (Spec.perShotHit (9 # 10) (10 / 100) (20 / 100) 50) = 12.
Proof. split; vm_compute; reflexivity. Qed.

(** ** The theorems at work on the sample battle *)

(** A basic attack with three arrows owned: attack delta 8, hit delta 0.20,
    ranged-hit delta 0.10, one arrow pending. *)
Example basic_attack_overlay :
  let a := MV.actorOf (MV.started (MV.attacking 3 2)) in
  _isApplyingTempAmmoParams a = true
  /\ _tempAmmoAtk a = 8%Q
  /\ (_tempAmmoHit a == 20 # 100)%Q
  /\ (_tempRangedHit a == 10 # 100)%Q
  /\ _ammoToConsumeCount a = 1.
Proof. vm_compute. repeat split. Qed.

(** With no arrow left the Start hook selects the fire arrows, writes the
    slot and overrides the animation of the working weapon copy. *)
Example start_reselects_and_overrides_animation :
  let bm := MV.started (MV.attacking 0 2) in
  @value _ MV.demo (world bm) 10 = 6
  /\ option_map weapon_animationId (_battleWeapon (MV.actorOf bm))
     = Some (70 # 1)%Q
  /\ _originalWeaponData (MV.actorOf bm) = Some MV.bow.
Proof. vm_compute. repeat split. Qed.

(** C7 on the host without slots. *)
Lemma ensureValidAmmoSelected_unslotted_witness :
  @ensureValidAmmoSelected _ MV.noSlots (MV.inventory 3 2)
    (Some "Arrow"%string) = (MV.inventory 3 2, None)
  /\ @hasValidAmmo _ MV.noSlots (MV.inventory 3 2) (Some "Arrow"%string) = true.
Proof.
  apply (@ensureValidAmmoSelected_unslotted _ MV.noSlots).
  left; reflexivity.
Defined.

(** C5: [StrictAmmo] 30 with no arrow of either kind owned forces 0.30. *)
Lemma itemHit_strict_fallback_witness :
  @itemHit _ MV.demo unit (fun _ => 95 # 100) (MV.inventory 0 0)
    (Some (BActor (MV.archer (1 # 2)))) (MV.strictShot 30) tt = (30 / 100)%Q.
Proof.
  apply (@itemHit_strict_fallback _ MV.demo unit (fun _ => 95 # 100)
           (MV.inventory 0 0) (MV.archer (1 # 2)) (MV.strictShot 30) tt 30
           MV.bow []); reflexivity.
Defined.

(** C9: a miss, then two hits: nothing is deducted. *)
Lemma miss_before_hit_deducts_nothing_witness :
  let bm := MV.started (MV.attacking 3 2) in
  world (@applyTargets _ MV.demo bm [MV.miss; MV.hit; MV.hit]) = world bm.
Proof.
  intros bm.
  apply (@miss_before_hit_deducts_nothing _ MV.demo bm (MV.actorOf bm)
           MV.miss [] MV.hit [MV.hit]).
  - reflexivity.
  - reflexivity.
  - repeat constructor.
  - reflexivity.
Defined.

(** C1 (as amended): a volley of three arrows; hit first, all three are
    deducted once; miss first, none is. *)
Lemma consumption_decided_by_first_result_witness :
  let bm := MV.started (MV.volleying 3 2) in
  world (@applyTargets _ MV.demo bm [MV.hit; MV.miss; MV.hit])
  = MV.inventory 0 2
  /\ world (@applyTargets _ MV.demo bm [MV.miss; MV.hit]) = MV.inventory 3 2.
Proof.
  intros bm. split.
  - apply (@consumption_decided_by_first_result _ MV.demo bm (MV.actorOf bm)
             MV.hit [MV.miss; MV.hit] MV.bow [] (MV.inventory 3 2) MV.arrow);
      (reflexivity || (vm_compute; reflexivity)).
  - apply (@consumption_decided_by_first_result _ MV.demo bm (MV.actorOf bm)
             MV.miss [MV.hit] MV.bow [] (MV.inventory 3 2) MV.arrow);
      (reflexivity || (vm_compute; reflexivity)).
Defined.

(** C6: the attack with fire arrows, aborted before any Apply call. *)
Lemma endAction_resets_armed_overlay_witness :
  exists subject3,
    _subject (@endAction _
                (@applyTargets _ MV.demo (MV.started (MV.attacking 0 2)) []))
    = Some (BActor subject3)
    /\ overlayCleared subject3
    /\ _battleWeapon subject3 = _originalWeaponData subject3
    /\ _originalWeaponData subject3 = Some MV.bow.
Proof.
  apply (@endAction_resets_armed_overlay _ MV.demo (MV.attacking 0 2)
           (MV.started (MV.attacking 0 2)) (MV.archer (1 # 2))
           (MV.actorOf (MV.started (MV.attacking 0 2))) []).
  - reflexivity.
  - split; discriminate.
  - vm_compute; reflexivity.
  - reflexivity.
  - reflexivity.
Defined.

(** C2 (as amended) on the volley of the specification's second example:
    the exact product is about 23.47, clear of the ties 22.5 and 23.5. *)
Lemma multiShot_attack_delta_witness :
  exists a',
    @applyAmmoEffects _ MV.demo (MV.inventory 3 0) (MV.archer (1 # 2))
      (Some MV.arrow) (MV.volley 5 90) = Some a'
    /\ _tempAmmoAtk a' = inject_Z 23.
Proof.
  apply (proj1 multiShot_attack_delta MV.World MV.demo (MV.inventory 3 0)
           (MV.archer (1 # 2)) MV.arrow (MV.volley 5 90) 5 MV.bow).
  - reflexivity.
  - reflexivity.
  - vm_compute; discriminate.
  - unfold Ideal.moderate, Ideal.within.
    repeat split; vm_compute; discriminate.
  - unfold Ideal.clearOfTies. split; vm_compute; discriminate.
Defined.

(** C4 on the same volley: hit bonus 20, no threshold, three shots. *)
Lemma multiShot_hit_rate_delta_witness :
  exists a',
    @applyAmmoEffects _ MV.demo (MV.inventory 3 0) (MV.archer (1 # 2))
      (Some MV.arrow) (MV.volley 5 90) = Some a'
    /\ (_tempAmmoHit a' == Spec.hitRateDeltaPct 20 (3 # 4) 3 / 100)%Q.
Proof.
  destruct (proj1 multiShot_hit_rate_delta MV.World MV.demo (MV.inventory 3 0)
              (MV.archer (1 # 2)) MV.arrow (MV.volley 5 90) 5 MV.bow)
    as (a' & Happ & Hpos & _).
  - reflexivity.
  - reflexivity.
  - vm_compute; discriminate.
  - exists a'. split; [exact Happ|]. apply Hpos. reflexivity.
Defined.

(** C8 (as amended) at [p = 0.72], three shots against four:
    [0.28^4] is about [2^-7.3]. *)
Lemma multiShot_monotone_witness :
  (probAtLeastOneHit (72 # 100) 3 < probAtLeastOneHit (72 # 100) 4)%Q
  /\ multiShotAtk 3 8 (72 # 100) <= multiShotAtk 4 8 (72 # 100).
Proof.
  destruct (multiShot_monotone (72 # 100)) as (_ & Hprob & Hatk);
    [reflexivity|reflexivity|].
  split.
  - apply Hprob; [lia|vm_compute; discriminate|vm_compute; discriminate].
  - apply Hatk; [discriminate|lia].
Defined.

(** C10: the commit in a world where the selected arrows are gone. *)
Lemma apply_commit_reselects_witness :
  let bm := MV.resumeIn (MV.inventory 0 2) (MV.started (MV.attacking 1 2)) in
  world (fst (@Game_Action_apply _ MV.demo bm MV.hit))
  = @loseItem _ MV.demo MV.fireArrow 1
      (@setValue _ MV.demo 10 6 (MV.inventory 0 2)).
Proof.
  intros bm.
  apply (proj1 apply_commit_reselects MV.World MV.demo bm (MV.actorOf bm)
           MV.hit MV.bow []); reflexivity.
Defined.

(** * Further properties of the plugin *)

Section SelectorMore.

Context {W : Type} `{Host W}.

Lemma findBestMatchingAmmoItem_some (w : W) (ty : option string) (it : Item) :
  findBestMatchingAmmoItem w ty = Some it ->
  In (Some it) (partyItems w) /\ isItem it = true
  /\ JS.streq (item_Ammo it) ty = true.
Proof.
  unfold findBestMatchingAmmoItem.
  destruct (find _ (partyItems w)) as [found|] eqn:Hfind; [|discriminate].
  intros ->. apply find_some in Hfind. destruct Hfind as [Hin Hp].
  destruct (isItem it); [auto|discriminate].
Qed.

(** X1: [findBestMatchingAmmoItem] returns the first entry of the party's
    item list that is a database item with the required ammo tag (every
    entry before it fails that test), and returns nothing exactly when no
    entry of the list passes. *)
Theorem findBestMatchingAmmoItem_first_match (w : W) (ty : option string) :
  (forall it, findBestMatchingAmmoItem w ty = Some it ->
     exists before after,
       partyItems w = before ++ Some it :: after
       /\ isItem it = true /\ JS.streq (item_Ammo it) ty = true
       /\ forall other, In (Some other) before ->
            isItem other && JS.streq (item_Ammo other) ty = false)
  /\ (findBestMatchingAmmoItem w ty = None <->
      forall it, In (Some it) (partyItems w) ->
        isItem it && JS.streq (item_Ammo it) ty = false).
Proof.
  unfold findBestMatchingAmmoItem.
  set (p := fun it : option Item =>
              match it with
              | Some item =>
                  if isItem item then JS.streq (item_Ammo item) ty else false
              | None => false
              end).
  assert (Hp : forall it, p (Some it) = isItem it && JS.streq (item_Ammo it) ty)
    by (intros it; cbn; destruct (isItem it); reflexivity).
  split.
  - intros it. induction (partyItems w) as [|x l IH]; cbn; [discriminate|].
    destruct (p x) eqn:Hx.
    + intros ->. exists [], l. rewrite Hp in Hx.
      apply andb_true_iff in Hx. cbn. intuition.
    + intros Hf. destruct (IH Hf) as (before & after & -> & Hi & Hs & Hb).
      exists (x :: before), after. repeat split; auto.
      intros other [->|Hin]; [now rewrite <- Hp|auto].
  - split.
    + intros Hnone it Hin.
      destruct (find p (partyItems w)) as [[found|]|] eqn:Hfind;
        [discriminate| |].
      * apply find_some in Hfind. destruct Hfind as [_ Hbad]. discriminate.
      * rewrite <- Hp. exact (find_none _ _ Hfind _ Hin).
    + intros Hall.
      destruct (find p (partyItems w)) as [[found|]|] eqn:Hfind;
        [|reflexivity|reflexivity].
      apply find_some in Hfind. destruct Hfind as [Hin Hgood].
      rewrite Hp, (Hall _ Hin) in Hgood. discriminate.
Qed.

(** The two ways [ensureValidAmmoSelected] ends in a slotted category. *)
Lemma ensureValidAmmoSelected_cases (w : W) (ty : option string) (vid : Z) :
  getVariableIdForAmmoType ty = Some vid -> vid <> 0 ->
  (exists it, ensureValidAmmoSelected w ty = (w, Some it)
              /\ 0 < value w vid /\ dataItems (value w vid) = Some it
              /\ JS.streq (item_Ammo it) ty = true /\ hasItem w it = true)
  \/ (ensureValidAmmoSelected w ty
      = (setValue vid
           (match findBestMatchingAmmoItem w ty with
            | Some b => item_id b
            | None => 0
            end) w,
         findBestMatchingAmmoItem w ty)).
Proof.
  intros Hv Hnz. unfold ensureValidAmmoSelected. rewrite Hv.
  destruct (Z.eqb_spec vid 0); [contradiction|]. cbv zeta.
  destruct (Z.ltb_spec 0 (value w vid)) as [Hpos|Hneg]; [|now right].
  destruct (dataItems (value w vid)) as [it|] eqn:Hd; [|now right].
  destruct (JS.streq (item_Ammo it) ty) eqn:Hs; [|now right].
  destruct (hasItem w it) eqn:Hh; [|now right].
  left. exists it. cbn. auto.
Qed.

Lemma ensureValidAmmoSelected_slotted (w w' : W) (ty : option string)
    (it : Item) :
  ensureValidAmmoSelected w ty = (w', Some it) ->
  exists vid, getVariableIdForAmmoType ty = Some vid /\ vid <> 0.
Proof.
  intros He. unfold ensureValidAmmoSelected in He.
  destruct (getVariableIdForAmmoType ty) as [vid|]; [|discriminate].
  destruct (Z.eqb_spec vid 0) as [|Hnz]; [discriminate|]. eauto.
Qed.

Lemma ensureValidAmmoSelected_tag (w w' : W) (ty : option string) (it : Item) :
  ensureValidAmmoSelected w ty = (w', Some it) ->
  JS.streq (item_Ammo it) ty = true.
Proof.
  intros He.
  destruct (ensureValidAmmoSelected_slotted w w' ty it He) as (vid & Hv & Hnz).
  destruct (ensureValidAmmoSelected_cases w ty vid Hv Hnz)
    as [(it0 & He0 & _ & _ & Hs & _)|He0]; rewrite He0 in He.
  - now injection He as _ <-.
  - injection He as _ Hbest.
    exact (proj2 (proj2 (findBestMatchingAmmoItem_some w ty it Hbest))).
Qed.

Lemma ensureValidAmmoSelected_owned (w w' : W) (ty : option string)
    (it : Item) :
  ensureValidAmmoSelected w ty = (w', Some it) ->
  hasItem w it = true \/ In (Some it) (partyItems w).
Proof.
  intros He.
  destruct (ensureValidAmmoSelected_slotted w w' ty it He) as (vid & Hv & Hnz).
  destruct (ensureValidAmmoSelected_cases w ty vid Hv Hnz)
    as [(it0 & He0 & _ & _ & _ & Hh)|He0]; rewrite He0 in He.
  - injection He as _ <-. now left.
  - injection He as _ Hbest. right.
    exact (proj1 (findBestMatchingAmmoItem_some w ty it Hbest)).
Qed.

Lemma ensureValidAmmoSelected_world (w : W) (ty : option string) :
  fst (ensureValidAmmoSelected w ty) = w
  \/ exists vid v, vid <> 0
       /\ fst (ensureValidAmmoSelected w ty) = setValue vid v w.
Proof.
  unfold ensureValidAmmoSelected.
  destruct (getVariableIdForAmmoType ty) as [vid|]; [|now left].
  destruct (Z.eqb_spec vid 0) as [|Hnz]; [now left|]. cbv zeta.
  destruct (if 0 <? value w vid then dataItems (value w vid) else None)
    as [it|]; [destruct (_ && _); [now left|]|];
    right; exists vid; eexists; (split; [exact Hnz|reflexivity]).
Qed.

(** X2: every item [ensureValidAmmoSelected] returns carries the requested
    ammo tag and belongs to a slotted category; either it is the slot's
    item, still owned, and the world is returned as it was, or it is an item
    of the party's list and its id has been written to the slot. *)
Theorem selected_item_is_of_category (w w' : W) (ty : option string)
    (it : Item) :
  ensureValidAmmoSelected w ty = (w', Some it) ->
  JS.streq (item_Ammo it) ty = true
  /\ exists vid,
       getVariableIdForAmmoType ty = Some vid /\ vid <> 0
       /\ ((w' = w /\ 0 < value w vid
            /\ dataItems (value w vid) = Some it /\ hasItem w it = true)
           \/ (w' = setValue vid (item_id it) w
               /\ In (Some it) (partyItems w) /\ isItem it = true)).
Proof.
  intros He.
  destruct (ensureValidAmmoSelected_slotted w w' ty it He) as (vid & Hv & Hnz).
  destruct (ensureValidAmmoSelected_cases w ty vid Hv Hnz)
    as [(it0 & He0 & Hpos & Hd & Hs & Hh)|He0]; rewrite He0 in He.
  - injection He as <- <-. split; [exact Hs|].
    exists vid. split; [exact Hv|]. split; [exact Hnz|]. left. auto.
  - injection He as <- Hbest.
    destruct (findBestMatchingAmmoItem_some w ty it Hbest) as (Hin & Hi & Hs).
    split; [exact Hs|]. exists vid. split; [exact Hv|].
    split; [exact Hnz|]. right. rewrite Hbest. auto.
Qed.

(** X3: in a slotted category [hasValidAmmo] answers true exactly when
    [ensureValidAmmoSelected] would return an item. *)
Theorem hasValidAmmo_agrees_with_selection (w : W) (ty : option string)
    (vid : Z) :
  getVariableIdForAmmoType ty = Some vid -> vid <> 0 ->
  hasValidAmmo w ty
  = match snd (ensureValidAmmoSelected w ty) with
    | Some _ => true
    | None => false
    end.
Proof.
  intros Hv Hnz. unfold hasValidAmmo, ensureValidAmmoSelected. rewrite Hv.
  destruct (Z.eqb_spec vid 0); [contradiction|]. cbv zeta.
  destruct (if 0 <? value w vid then dataItems (value w vid) else None)
    as [it|]; [destruct (_ && _)|]; reflexivity.
Qed.

(** X4: when the slot of a category holds the id of a database item that
    carries the category's tag and is still owned, [ensureValidAmmoSelected]
    returns that item and the world unchanged (nothing is written), and
    [hasValidAmmo] answers true. *)
Theorem valid_selection_is_kept (w : W) (ty : option string) (vid : Z)
    (it : Item) :
  getVariableIdForAmmoType ty = Some vid -> vid <> 0 ->
  0 < value w vid -> dataItems (value w vid) = Some it ->
  JS.streq (item_Ammo it) ty = true -> hasItem w it = true ->
  ensureValidAmmoSelected w ty = (w, Some it) /\ hasValidAmmo w ty = true.
Proof.
  intros Hv Hnz Hpos Hd Hs Hh.
  unfold ensureValidAmmoSelected, hasValidAmmo. rewrite Hv.
  destruct (Z.eqb_spec vid 0); [contradiction|]. cbv zeta.
  destruct (Z.ltb_spec 0 (value w vid)); [|lia].
  rewrite Hd, Hs, Hh. split; reflexivity.
Qed.

End SelectorMore.

Section CompositorMore.

Context {W : Type} `{Host W}.

(** The record [applyAmmoEffects] builds, whatever branch computed the five
    values that depend on the action. *)
Lemma applyAmmoEffects_shape (w : W) (a : Actor) (ammoItem : Item)
    (action : Action) (bw : Weapon) :
  _battleWeapon a = Some bw ->
  exists atk states hit crit count,
    1 <= count
    /\ applyAmmoEffects w a (Some ammoItem) action
       = Some {| _battleWeapon := Some bw;
                 _originalWeaponData := _originalWeaponData a;
                 _tempAmmoAtk := atk;
                 _tempAmmoStateInfo := states;
                 _tempAmmoElementId := item_AmmoDmgType ammoItem;
                 _tempRangedHit := (JS.or0 (weapon_RangedHit bw) / 100)%Q;
                 _tempAmmoHit := hit;
                 _tempRangedCrit := (JS.or0 (weapon_RangedCrit bw) / 100)%Q;
                 _tempAmmoCrit := crit;
                 _isApplyingTempAmmoParams := true;
                 _ammoToConsumeCount := count;
                 host_paramPlus := host_paramPlus a;
                 host_xparam := host_xparam a;
                 host_weapons := host_weapons a |}.
Proof.
  intros Hbw. unfold applyAmmoEffects. rewrite Hbw. cbv zeta.
  destruct (MultiShot action) as [n|].
  - destruct (0 <? n).
    + destruct (Z.ltb_spec 0 (Z.min n (numItems w ammoItem))).
      * do 5 eexists. split; [|reflexivity]. lia.
      * do 5 eexists. split; [|reflexivity]. lia.
    + do 5 eexists. split; [|reflexivity]. lia.
  - do 5 eexists. split; [|reflexivity]. lia.
Qed.

Lemma applyAmmoEffects_null_weapon (w : W) (a : Actor) (ammoItem : Item)
    (action : Action) :
  _battleWeapon a = None ->
  applyAmmoEffects w a (Some ammoItem) action = None.
Proof.
  intros Hbw. unfold applyAmmoEffects. rewrite Hbw. cbv zeta.
  destruct (MultiShot action) as [n|];
    [destruct (0 <? n);
     [destruct (0 <? Z.min n (numItems w ammoItem))|]|]; reflexivity.
Qed.

(** X5: [applyAmmoEffects] with an ammo item throws (dereferencing the
    null working copy) exactly when the actor has no working weapon copy;
    with no ammo item it returns at once and changes nothing. *)
Theorem applyAmmoEffects_fails_iff (w : W) (a : Actor) (ammoItem : Item)
    (action : Action) :
  (applyAmmoEffects w a (Some ammoItem) action = None
   <-> _battleWeapon a = None)
  /\ applyAmmoEffects w a None action = Some a.
Proof.
  split; [|reflexivity]. split.
  - intros Hnone. destruct (_battleWeapon a) as [bw|] eqn:Hbw; [|reflexivity].
    destruct (applyAmmoEffects_shape w a ammoItem action bw Hbw)
      as (? & ? & ? & ? & ? & _ & Happ).
    rewrite Happ in Hnone. discriminate.
  - apply applyAmmoEffects_null_weapon.
Qed.

(** X6: [resetAmmoEffects] undoes [applyAmmoEffects]: resetting the actor it
    returns gives the same actor as resetting the one it was given. *)
Theorem resetAmmoEffects_undoes_applyAmmoEffects (w : W) (a a' : Actor)
    (ammoItem : option Item) (action : Action) :
  applyAmmoEffects w a ammoItem action = Some a' ->
  resetAmmoEffects a' = resetAmmoEffects a.
Proof.
  destruct ammoItem as [ammo|]; [|intros [= <-]; reflexivity].
  destruct (_battleWeapon a) as [bw|] eqn:Hbw.
  - destruct (applyAmmoEffects_shape w a ammo action bw Hbw)
      as (? & ? & ? & ? & ? & _ & Happ).
    rewrite Happ. intros [= <-]. unfold resetAmmoEffects. cbn.
    rewrite Hbw. reflexivity.
  - rewrite (applyAmmoEffects_null_weapon w a ammo action Hbw). discriminate.
Qed.

(** X7: for an action with no [MultiShot] count, or with a count that is
    not positive, [applyAmmoEffects] arms the overlay with the ammo's own
    values: flat attack bonus, state list, hit and crit bonuses divided by
    100, the weapon copy's ranged bonuses, the ammo's element, and a
    consumption count of 1. *)
Theorem singleShot_overlay (w : W) (a : Actor) (ammoItem : Item)
    (action : Action) (bw : Weapon) :
  _battleWeapon a = Some bw ->
  (MultiShot action = None
   \/ exists n, MultiShot action = Some n /\ n <= 0) ->
  exists a',
    applyAmmoEffects w a (Some ammoItem) action = Some a'
    /\ _isApplyingTempAmmoParams a' = true
    /\ _tempAmmoAtk a' = JS.or0 (item_AmmoAtk ammoItem)
    /\ _tempAmmoStateInfo a' = item_AmmoState ammoItem
    /\ _tempAmmoHit a' = (JS.or0 (item_AmmoHitRate ammoItem) / 100)%Q
    /\ _tempAmmoCrit a' = (JS.or0 (item_AmmoCrit ammoItem) / 100)%Q
    /\ _tempRangedHit a' = (JS.or0 (weapon_RangedHit bw) / 100)%Q
    /\ _tempRangedCrit a' = (JS.or0 (weapon_RangedCrit bw) / 100)%Q
    /\ _tempAmmoElementId a' = item_AmmoDmgType ammoItem
    /\ _ammoToConsumeCount a' = 1.
Proof.
  intros Hbw Hsingle. unfold applyAmmoEffects. rewrite Hbw. cbv zeta.
  destruct Hsingle as [-> | (n & -> & Hn)].
  - eexists. split; [reflexivity|]. cbn. auto 12.
  - destruct (Z.ltb_spec 0 n); [lia|].
    eexists. split; [reflexivity|]. cbn. auto 12.
Qed.

Lemma length_concat_repeat {A : Type} (l : list A) (n : nat) :
  List.length (List.concat (repeat l n)) = (n * List.length l)%nat.
Proof.
  induction n as [|n IH]; cbn; [reflexivity|].
  now rewrite length_app, IH.
Qed.

(** X8: on a multi-shot action with [shots = min(N, owned) >= 1] the stored
    state list is the ammo's state list repeated [shots] times: its length
    is [shots] times the original's and it holds the same entries. *)
Theorem multiShot_states_repeated (w : W) (a : Actor) (ammoItem : Item)
    (action : Action) (N : Z) (bw : Weapon) :
  MultiShot action = Some N ->
  _battleWeapon a = Some bw ->
  let shots := Z.min N (numItems w ammoItem) in
  1 <= shots ->
  exists a',
    applyAmmoEffects w a (Some ammoItem) action = Some a'
    /\ _tempAmmoStateInfo a'
       = List.concat (repeat (item_AmmoState ammoItem) (Z.to_nat shots))
    /\ Z.of_nat (List.length (_tempAmmoStateInfo a'))
       = shots * Z.of_nat (List.length (item_AmmoState ammoItem))
    /\ (forall entry, In entry (_tempAmmoStateInfo a') <->
                      In entry (item_AmmoState ammoItem)).
Proof.
  intros HN Hbw shots Hshots. unfold applyAmmoEffects.
  rewrite HN, Hbw. cbv zeta. fold shots.
  destruct (Z.ltb_spec 0 N); [|lia].
  destruct (Z.ltb_spec 0 shots); [|lia].
  eexists. split; [reflexivity|]. cbn.
  set (base := item_AmmoState ammoItem).
  assert (Hstates :
    (if 0 <? Z.of_nat (List.length base)
     then List.concat (repeat base (Z.to_nat shots)) else [])
    = List.concat (repeat base (Z.to_nat shots))).
  { destruct base as [|e l]; cbn [List.length]; [|reflexivity].
    cbn. induction (Z.to_nat shots); cbn; auto. }
  rewrite Hstates. split; [reflexivity|]. split.
  - rewrite length_concat_repeat. lia.
  - intros entry. rewrite in_concat. split.
    + intros (l & Hl & Hin). apply repeat_spec in Hl. now subst.
    + intros Hin. exists base. split; [|exact Hin].
      destruct (Z.to_nat shots) eqn:Hs; [lia|]. now left.
Qed.

Lemma applyAmmoEffects_multiShot_crit (w : W) (a : Actor) (ammoItem : Item)
    (action : Action) (multiShotCount : Z) (bw : Weapon) :
  MultiShot action = Some multiShotCount ->
  _battleWeapon a = Some bw ->
  let numShots := Z.min multiShotCount (numItems w ammoItem) in
  1 <= numShots ->
  exists a',
    applyAmmoEffects w a (Some ammoItem) action = Some a'
    /\ _tempAmmoCrit a'
       = multiShotRateBonus w ammoItem action numShots
           (JS.or0 (item_AmmoCrit ammoItem))
           (JS.or0 (item_AmmoCrit ammoItem) / 100) (1 # 2) (33 # 100).
Proof.
  intros HN Hbw numShots Hshots. unfold applyAmmoEffects.
  rewrite HN, Hbw. cbv zeta. fold numShots.
  destruct (Z.ltb_spec 0 multiShotCount); [|lia].
  destruct (Z.ltb_spec 0 numShots); [|lia].
  eexists. split; reflexivity.
Qed.

(** X9: on a multi-shot action with [shots >= 1] and an ammo crit bonus
    [C > 0] the stored crit-rate delta is
    [(C * m) * (1 - 0.5^shots) / (1 - 0.5) / 100], with [m = 0.33] when a
    low-ammo threshold is given and the owned count is below it and
    [m = 0.5] otherwise; a bonus that is not positive is stored as [C/100]. *)
Theorem multiShot_crit_rate_delta (w : W) (a : Actor) (ammoItem : Item)
    (action : Action) (N : Z) (bw : Weapon) :
  MultiShot action = Some N ->
  _battleWeapon a = Some bw ->
  let owned := numItems w ammoItem in
  let shots := Z.min N owned in
  1 <= shots ->
  let C := JS.or0 (item_AmmoCrit ammoItem) in
  let m := match LowAmmoAnimation action with
           | Some info =>
               if JS.ltb (inject_Z owned) (quantity info)
               then (33 # 100)%Q else (1 # 2)%Q
           | None => (1 # 2)%Q
           end in
  exists a',
    applyAmmoEffects w a (Some ammoItem) action = Some a'
    /\ ((0 < C)%Q ->
        (_tempAmmoCrit a'
         == (C * m) * (1 - (1 # 2) ^ shots) / (1 - (1 # 2)) / 100)%Q)
    /\ ((C <= 0)%Q -> _tempAmmoCrit a' = (C / 100)%Q).
Proof.
  intros HN Hbw owned shots Hshots C m.
  destruct (applyAmmoEffects_multiShot_crit w a ammoItem action N bw HN Hbw
              Hshots) as (a' & Happ & Hcrit).
  exists a'. split; [exact Happ|]. fold owned shots C in Hcrit.
  rewrite Hcrit. unfold multiShotRateBonus.
  assert (Hm : (if lowAmmo w ammoItem action then 33 # 100 else 1 # 2)%Q = m).
  { unfold lowAmmo, m. fold owned.
    destruct (LowAmmoAnimation action); reflexivity. }
  rewrite Hm. split.
  - intros HC. pose proof HC as HCb. apply ltb_true in HCb. rewrite HCb.
    assert (Hmpos : (0 < m)%Q).
    { unfold m. destruct (LowAmmoAnimation action) as [info|];
        [destruct (JS.ltb _ _)|]; reflexivity. }
    assert (Ha : JS.ltb 0 (C * m) = true)
      by (apply ltb_true; now apply Qmult_lt_0_compat).
    rewrite Ha. reflexivity.
  - intros HC. apply ltb_false in HC. rewrite HC. reflexivity.
Qed.

(** X10: on the actor [applyAmmoEffects] returns, [paramPlus] adds the
    attack delta to parameter 2 only, and [xparam] adds the ranged and ammo
    hit deltas to ex-parameter 0 and the ranged and ammo crit deltas to
    ex-parameter 2 only; every other id answers the host's value. *)
Theorem armed_stat_queries (w : W) (a a' : Actor) (ammoItem : Item)
    (action : Action) :
  applyAmmoEffects w a (Some ammoItem) action = Some a' ->
  paramPlus a' 2 = (host_paramPlus a 2 + _tempAmmoAtk a')%Q
  /\ xparam a' 0
     = (host_xparam a 0 + (_tempRangedHit a' + _tempAmmoHit a'))%Q
  /\ xparam a' 2
     = (host_xparam a 2 + (_tempRangedCrit a' + _tempAmmoCrit a'))%Q
  /\ (forall id, id <> 2 -> paramPlus a' id = host_paramPlus a id)
  /\ (forall id, id <> 0 -> id <> 2 -> xparam a' id = host_xparam a id).
Proof.
  intros Happ.
  destruct (_battleWeapon a) as [bw|] eqn:Hbw.
  - destruct (applyAmmoEffects_shape w a ammoItem action bw Hbw)
      as (atk & states & hit & crit & count & _ & Hshape).
    rewrite Hshape in Happ. injection Happ as <-.
    unfold paramPlus, xparam. cbn. repeat split.
    + intros id Hid. destruct (Z.eqb_spec id 2); [contradiction|reflexivity].
    + intros id H0 H2.
      destruct (Z.eqb_spec id 0); [contradiction|].
      destruct (Z.eqb_spec id 2); [contradiction|reflexivity].
  - rewrite (applyAmmoEffects_null_weapon w a ammoItem action Hbw) in Happ.
    discriminate.
Qed.

(** X11: for the actor [applyAmmoEffects] returns, [calcElementRate] is the
    target's rate for the ammo's element when the ammo has one that is not
    negative, and the wrapped method's result otherwise. *)
Theorem element_override_while_armed {T : Type} (elementRate : T -> Q -> Q)
    (host_calcElementRate : T -> Q) (w : W) (a a' : Actor) (ammoItem : Item)
    (action : Action) (target : T) :
  applyAmmoEffects w a (Some ammoItem) action = Some a' ->
  calcElementRate elementRate host_calcElementRate (Some (BActor a')) target
  = match item_AmmoDmgType ammoItem with
    | Some e => if Qle_bool 0 e then elementRate target e
                else host_calcElementRate target
    | None => host_calcElementRate target
    end.
Proof.
  intros Happ.
  destruct (_battleWeapon a) as [bw|] eqn:Hbw.
  - destruct (applyAmmoEffects_shape w a ammoItem action bw Hbw)
      as (atk & states & hit & crit & count & _ & Hshape).
    rewrite Hshape in Happ. injection Happ as <-. reflexivity.
  - rewrite (applyAmmoEffects_null_weapon w a ammoItem action Hbw) in Happ.
    discriminate.
Qed.

Lemma min_bounds (x y : Q) : (JS.min x y <= x)%Q /\ (JS.min x y <= y)%Q.
Proof.
  unfold JS.min. destruct (Qle_bool x y) eqn:Hle.
  - apply Qle_bool_iff in Hle. split; [apply Qle_refl|exact Hle].
  - assert (Hlt : (y < x)%Q).
    { apply Qnot_le_lt. intros Hc. apply Qle_bool_iff in Hc. congruence. }
    split; [now apply Qlt_le_weak|apply Qle_refl].
Qed.

Lemma max_bounds (x y : Q) : (x <= JS.max x y)%Q /\ (y <= JS.max x y)%Q.
Proof.
  unfold JS.max. destruct (Qle_bool x y) eqn:Hle.
  - apply Qle_bool_iff in Hle. split; [exact Hle|apply Qle_refl].
  - assert (Hlt : (y < x)%Q).
    { apply Qnot_le_lt. intros Hc. apply Qle_bool_iff in Hc. congruence. }
    split; [apply Qle_refl|now apply Qlt_le_weak].
Qed.

Lemma max_cases (x y : Q) : JS.max x y = x \/ JS.max x y = y.
Proof. unfold JS.max. destruct (Qle_bool x y); auto. Qed.

(** X12: whatever the stats, the per-shot hit chance lies in
    [[0.01, 0.95]], so for at least one shot the probability of at least one
    hit is positive and at most 1 (a bound the program's doubles reach, see
    [doubles_saturate_at_thirteen_shots]). *)
Theorem singleShotHitChance_clamped (baseHit ranged ammo rate : Q) (shots : Z) :
  1 <= shots ->
  let p := singleShotHitChance baseHit ranged ammo rate in
  (1 # 100 <= p)%Q /\ (p <= 95 # 100)%Q
  /\ (0 < probAtLeastOneHit p shots)%Q /\ (probAtLeastOneHit p shots <= 1)%Q.
Proof.
  intros Hshots p.
  assert (Hlo : (1 # 100 <= p)%Q) by apply max_bounds.
  assert (Hhi : (p <= 95 # 100)%Q).
  { unfold p, singleShotHitChance.
    destruct (max_cases (1 # 100)
                (JS.min (95 # 100) ((baseHit + ranged + ammo) * rate)))
      as [-> | ->]; [discriminate|apply min_bounds]. }
  split; [exact Hlo|]. split; [exact Hhi|].
  unfold probAtLeastOneHit, JS.pow.
  assert (Hpos : (0 < (1 - p) ^ shots)%Q) by (apply Qpower_0_lt; lra).
  assert (Hlt : ((1 - p) ^ shots < 1)%Q)
    by (apply Qpower_below_one; [lra|lra|lia]).
  split; lra.
Qed.

(** X13: for [a > 0] the geometric bonus [a * (1 - 0.5^n) / (1 - 0.5)] is
    at most [2a] for every [n >= 1] (the program's doubles reach [2a], see
    [doubles_reach_twice_the_bonus]) and never decreases when [n] grows;
    for [a] of at least [1/1024], which a double halves without underflow,
    it is at least [a]. *)
Theorem totalBonus_bounds (a : Q) :
  (0 < a)%Q ->
  (forall n, 1 <= n -> (totalBonus a n <= 2 * a)%Q)
  /\ (forall n m, 1 <= n <= m -> (totalBonus a n <= totalBonus a m)%Q)
  /\ (forall n, 1 <= n -> (1 # 1024 <= a)%Q -> (a <= totalBonus a n)%Q).
Proof.
  intros Ha. unfold totalBonus, JS.pow.
  assert (Heq : forall x : Q, (a * (1 - x) / (1 - (1 # 2)) == 2 * a * (1 - x))%Q)
    by (intros x; field).
  assert (H2a : (0 < 2 * a)%Q) by lra.
  assert (Hhalf : forall n, 1 <= n -> ((1 # 2) ^ n <= 1 # 2)%Q).
  { intros n Hn. destruct (Z.eq_dec n 1) as [->|Hne]; [apply Qle_refl|].
    apply Qlt_le_weak. change (1 # 2)%Q with ((1 # 2) ^ 1)%Q at 2.
    apply Qpower_decreasing; [reflexivity|reflexivity|lia]. }
  split; [|split].
  - intros n Hn. rewrite !Heq.
    assert (Hn0 : (0 < (1 # 2) ^ n)%Q) by (apply Qpower_0_lt; reflexivity).
    assert (Hq : (2 * a * (1 - (1 # 2) ^ n) <= 2 * a * 1)%Q)
      by (apply Qmult_le_l; [exact H2a|lra]).
    lra.
  - intros n m [Hn Hnm]. rewrite !Heq.
    destruct (Z.eq_dec n m) as [->|Hne]; [apply Qle_refl|].
    assert (Hdec : ((1 # 2) ^ m < (1 # 2) ^ n)%Q)
      by (apply Qpower_decreasing; [reflexivity|reflexivity|lia]).
    apply Qmult_le_l; [exact H2a|lra].
  - intros n Hn _. rewrite !Heq.
    pose proof (Hhalf n Hn) as Hn1.
    assert (Hq : (2 * a * (1 # 2) <= 2 * a * (1 - (1 # 2) ^ n))%Q)
      by (apply Qmult_le_l; [exact H2a|lra]).
    lra.
Qed.

Lemma clamp_unit (c : Q) :
  (0 < JS.max (1 # 100) (JS.min (95 # 100) c))%Q
  /\ (JS.max (1 # 100) (JS.min (95 # 100) c) < 1)%Q.
Proof.
  unfold JS.max, JS.min.
  destruct (Qle_bool (95 # 100) c) eqn:Hc.
  - cbn. split; reflexivity.
  - destruct (Qle_bool (1 # 100) c) eqn:Hl.
    + apply Qle_bool_iff in Hl.
      assert (c < 95 # 100)%Q.
      { apply Qnot_le_lt. intros Hx. apply Qle_bool_iff in Hx. congruence. }
      split; lra.
    + split; reflexivity.
Qed.

(** X14: on a multi-shot action with [shots >= 1] and a flat attack bonus
    that is not negative, the stored attack delta is not negative and never
    exceeds [round(shots * flat)]. *)
Theorem volley_attack_delta_bounded (w : W) (a : Actor) (ammoItem : Item)
    (action : Action) (N : Z) (bw : Weapon) :
  MultiShot action = Some N ->
  _battleWeapon a = Some bw ->
  let shots := Z.min N (numItems w ammoItem) in
  let flat := JS.or0 (item_AmmoAtk ammoItem) in
  1 <= shots ->
  (0 <= flat)%Q ->
  exists a',
    applyAmmoEffects w a (Some ammoItem) action = Some a'
    /\ (0 <= _tempAmmoAtk a')%Q
    /\ (_tempAmmoAtk a' <= inject_Z (JS.round (inject_Z shots * flat)))%Q.
Proof.
  intros HN Hbw shots flat Hshots Hflat.
  destruct (applyAmmoEffects_multiShot w a ammoItem action N bw HN Hbw Hshots)
    as (a' & Happ & Hatk & _).
  exists a'. split; [exact Happ|]. rewrite Hatk. fold shots flat.
  set (p := singleShotHitChance _ _ _ _).
  assert (Hp : (0 < p)%Q /\ (p < 1)%Q) by apply clamp_unit.
  destruct Hp as [Hp0 Hp1].
  assert (HP0 : (0 <= probAtLeastOneHit p shots)%Q)
    by (apply probAtLeastOneHit_nonneg; [assumption..|lia]).
  assert (HP1 : (probAtLeastOneHit p shots <= 1)%Q).
  { unfold probAtLeastOneHit, JS.pow.
    assert (0 <= (1 - p) ^ shots)%Q by (apply Qpower_0_le; lra). lra. }
  assert (Hs : (0 <= inject_Z shots)%Q)
    by (change 0%Q with (inject_Z 0); rewrite <- Zle_Qle; lia).
  assert (Hsf : (0 <= inject_Z shots * flat)%Q)
    by (apply Qmult_le_0_compat; assumption).
  unfold multiShotAtk. split.
  - change 0%Q with (inject_Z 0). rewrite <- Zle_Qle.
    change 0 with (JS.round 0). apply round_monotone.
    apply Qmult_le_0_compat; assumption.
  - rewrite <- Zle_Qle. apply round_monotone.
    rewrite <- (Qmult_1_r (inject_Z shots * flat)) at 2.
    apply Qmult_le_compat_nonneg; split;
      [exact Hsf|apply Qle_refl|exact HP0|exact HP1].
Qed.

End CompositorMore.

Section ApplyMore.

Context {W : Type} `{Host W}.

(** X15: with draws of [Math.random()] in [[0, 1)], [rollStates] only adds
    states whose chance is positive, adds every state of a list whose
    chances are all at least 1, and adds none of a list whose chances are
    all at most 0. *)
Theorem rollStates_by_chance (draw : nat -> Q) (infos : list (Z * Q)) :
  (forall i, (0 <= draw i)%Q /\ (draw i < 1)%Q) ->
  (forall i id, In id (rollStates draw i infos) ->
     exists chance, In (id, chance) infos /\ (0 < chance)%Q)
  /\ (forall i, Forall (fun e => (1 <= snd e)%Q) infos ->
        rollStates draw i infos = map fst infos)
  /\ (forall i, Forall (fun e => (snd e <= 0)%Q) infos ->
        rollStates draw i infos = []).
Proof.
  intros Hdraw. repeat split.
  - induction infos as [|[id0 chance0] rest IH]; intros i id; cbn; [tauto|].
    intros Hin. apply in_app_or in Hin. destruct Hin as [Hin|Hin].
    + destruct (JS.ltb (draw i) chance0) eqn:Hlt; [|destruct Hin].
      destruct Hin as [<-|[]]. exists chance0. split; [now left|].
      apply ltb_true in Hlt. destruct (Hdraw i). lra.
    + destruct (IH _ _ Hin) as (chance & Hc & Hpos).
      exists chance. split; [now right|exact Hpos].
  - intros i Hall. revert i.
    induction Hall as [|[id0 chance0] rest Hc _ IH]; intros i; cbn;
      [reflexivity|].
    cbn in Hc.
    assert (Hlt : JS.ltb (draw i) chance0 = true)
      by (apply ltb_true; destruct (Hdraw i); lra).
    rewrite Hlt, IH. reflexivity.
  - intros i Hall. revert i.
    induction Hall as [|[id0 chance0] rest Hc _ IH]; intros i; cbn;
      [reflexivity|].
    cbn in Hc.
    assert (Hlt : JS.ltb (draw i) chance0 = false)
      by (apply ltb_false; destruct (Hdraw i); lra).
    rewrite Hlt, IH. reflexivity.
Qed.

Lemma rollStates_ids (draw : nat -> Q) (infos : list (Z * Q)) (i : nat)
    (id : Z) :
  In id (rollStates draw i infos) -> In id (map fst infos).
Proof.
  revert i. induction infos as [|[id0 chance0] rest IH]; intros i; cbn;
    [tauto|].
  intros Hin. apply in_app_or in Hin. destruct Hin as [Hin|Hin].
  - destruct (JS.ltb (draw i) chance0); [|destruct Hin].
    destruct Hin as [<-|[]]. now left.
  - right. exact (IH _ Hin).
Qed.

(** X16: the Apply hook adds a state to a target only when the result is a
    hit on a living enemy and the subject is an armed actor, and only a
    state of the overlay's state list. *)
Theorem apply_adds_states_only_on_live_enemy_hit (bm : BattleManager W)
    (target : TargetResult) (id : Z) :
  In id (snd (Game_Action_apply bm target)) ->
  result_isHit target = true /\ target_isEnemy target = true
  /\ target_isAlive target = true
  /\ exists subject,
       _subject bm = Some (BActor subject)
       /\ _isApplyingTempAmmoParams subject = true
       /\ In id (map fst (_tempAmmoStateInfo subject)).
Proof.
  unfold Game_Action_apply.
  destruct (_subject bm) as [[subject|]|]; [|intros []|intros []].
  destruct (_isApplyingTempAmmoParams subject) eqn:Harmed; [|intros []].
  destruct (result_isHit target); [|intros []].
  assert (Hadded :
    In id (if (0 <? Z.of_nat (List.length (_tempAmmoStateInfo subject)))
              && target_isEnemy target && target_isAlive target
           then rollStates (random target) 0 (_tempAmmoStateInfo subject)
           else []) ->
    true = true /\ target_isEnemy target = true
    /\ target_isAlive target = true
    /\ exists subject0,
         Some (BActor subject) = Some (BActor subject0)
         /\ _isApplyingTempAmmoParams subject0 = true
         /\ In id (map fst (_tempAmmoStateInfo subject0))).
  { destruct (0 <? _) ; [|intros []].
    destruct (target_isEnemy target); [|intros []].
    destruct (target_isAlive target); [|intros []].
    cbn. intros Hin. repeat split. exists subject.
    repeat split; [exact Harmed|]. exact (rollStates_ids _ _ _ _ Hin). }
  destruct (0 <? _ammoToConsumeCount subject); cbn [snd]; exact Hadded.
Qed.

(** X17: one call of the Apply hook leaves the action alone; it leaves the
    subject alone or, for an armed actor, zeroes its pending count and
    nothing else; and it leaves the world alone unless the result is a hit
    for an armed actor with a positive pending count, when the world is the
    committed one. *)
Theorem apply_touches_only_count_and_stock (bm : BattleManager W)
    (target : TargetResult) :
  let bm' := fst (Game_Action_apply bm target) in
  _action bm' = _action bm
  /\ (_subject bm' = _subject bm
      \/ exists subject,
           _subject bm = Some (BActor subject)
           /\ _isApplyingTempAmmoParams subject = true
           /\ _subject bm'
              = Some (BActor (set_ammoToConsumeCount subject 0)))
  /\ (world bm' = world bm
      \/ exists subject,
           _subject bm = Some (BActor subject)
           /\ _isApplyingTempAmmoParams subject = true
           /\ result_isHit target = true
           /\ 0 < _ammoToConsumeCount subject
           /\ world bm'
              = commitConsumption (world bm) subject
                  (_ammoToConsumeCount subject)).
Proof.
  unfold Game_Action_apply.
  destruct (_subject bm) as [[subject|]|] eqn:Hs; cbn; auto.
  destruct (_isApplyingTempAmmoParams subject) eqn:Harmed; cbn; auto.
  destruct (result_isHit target) eqn:Hhit.
  - destruct (Z.ltb_spec 0 (_ammoToConsumeCount subject)) as [Hpos|Hneg];
      cbn; auto.
    split; [reflexivity|]. split; right; exists subject; auto 10.
  - cbn. split; [reflexivity|]. split; [|now left].
    right. exists subject. auto.
Qed.

End ApplyMore.

Section StartMore.

Context {W : Type} `{Host W}.

(** The ways the Start hook returns. *)
Lemma startAction_inv (bm bm1 : BattleManager W) :
  startAction bm = Some bm1 ->
  bm1 = bm
  \/ exists subject action weapon rest,
       _subject bm = Some (BActor subject)
       /\ _action bm = Some action
       /\ weapons (world bm) subject = weapon :: rest
       /\ world bm1 = fst (ensureValidAmmoSelected (world bm) (weapon_Ammo weapon))
       /\ match snd (ensureValidAmmoSelected (world bm) (weapon_Ammo weapon)) with
          | Some ammo =>
              exists subject2 subject3,
                applyAmmoEffects (world bm1) (resetAmmoEffects subject)
                  (Some ammo) action = Some subject2
                /\ _subject bm1 = Some (BActor subject3)
                /\ (subject3 = subject2
                    \/ exists bw, subject3
                         = set_weaponCopies subject2 (Some bw)
                             (_originalWeaponData subject2))
          | None => _subject bm1 = Some (BActor (resetAmmoEffects subject))
          end.
Proof.
  unfold startAction.
  destruct (_subject bm) as [[subject|]|] eqn:Hs;
    [|intros [= <-]; now left|intros [= <-]; now left].
  destruct (_action bm) as [action|] eqn:Hact; [|intros [= <-]; now left].
  destruct (weapons (world bm) subject) as [|weapon rest] eqn:Hw;
    [intros [= <-]; now left|].
  cbv zeta.
  destruct (JS.truthy (weapon_Ammo weapon) && _); [|intros [= <-]; now left].
  destruct (ensureValidAmmoSelected (world bm) (weapon_Ammo weapon))
    as [w1 [ammo|]] eqn:He.
  - destruct (applyAmmoEffects w1 (resetAmmoEffects subject) (Some ammo) action)
      as [subject2|] eqn:Happ; [|discriminate].
    intros Hret. right. exists subject, action, weapon, rest. rewrite He.
    split; [reflexivity|]. split; [reflexivity|]. split; [exact Hw|].
    cbn [fst snd].
    destruct (isAttack action).
    + injection Hret as <-. cbn. split; [reflexivity|].
      eexists. eexists. split; [exact Happ|]. split; [reflexivity|].
      destruct (item_AmmoAnimation ammo) as [id|]; [|now left].
      destruct (_battleWeapon subject2) as [bw|]; [|now left].
      destruct (negb (Qeq_bool id 0)); [|now left].
      right. eauto.
    + destruct (isSkill action); injection Hret as <-; cbn;
        (split; [reflexivity|]); eexists; eexists; eauto.
  - intros [= <-]. right. exists subject, action, weapon, rest. rewrite He.
    cbn. auto.
Qed.

Lemma applyAmmoEffects_count (w : W) (a a' : Actor) (ammoItem : Item)
    (action : Action) :
  applyAmmoEffects w a (Some ammoItem) action = Some a' ->
  _isApplyingTempAmmoParams a' = true
  /\ 1 <= _ammoToConsumeCount a' <= Z.max 1 (numItems w ammoItem).
Proof.
  unfold applyAmmoEffects. cbv zeta.
  destruct (_battleWeapon a) as [bw|].
  - destruct (MultiShot action) as [n|].
    + destruct (0 <? n).
      * destruct (Z.ltb_spec 0 (Z.min n (numItems w ammoItem)));
          intros [= <-]; cbn; split; auto; lia.
      * intros [= <-]; cbn; split; auto; lia.
    + intros [= <-]; cbn; split; auto; lia.
  - destruct (MultiShot action) as [n|];
      [destruct (0 <? n);
       [destruct (0 <? Z.min n (numItems w ammoItem))|]|]; discriminate.
Qed.

(** X18: the Start hook never touches the inventory: the world it leaves is
    the one it found, or that one with a single write to a selection slot. *)
Theorem startAction_never_touches_stock (bm bm1 : BattleManager W) :
  startAction bm = Some bm1 ->
  world bm1 = world bm
  \/ exists vid v, vid <> 0 /\ world bm1 = setValue vid v (world bm).
Proof.
  intros Hstart.
  destruct (startAction_inv bm bm1 Hstart)
    as [-> | (subject & action & weapon & rest & _ & _ & _ & Hw & _)];
    [now left|].
  rewrite Hw. apply ensureValidAmmoSelected_world.
Qed.

(** X19: when the Start hook arms an actor that was not armed, the actor
    has a first weapon, [ensureValidAmmoSelected] returned an item for that
    weapon's ammo type, the item carries that type's tag, and the pending
    count is at least 1 and at most the larger of 1 and the owned count. *)
Theorem startAction_arms_with_selected_ammo (bm bm1 : BattleManager W)
    (subject subject1 : Actor) :
  _subject bm = Some (BActor subject) ->
  _isApplyingTempAmmoParams subject = false ->
  startAction bm = Some bm1 ->
  _subject bm1 = Some (BActor subject1) ->
  _isApplyingTempAmmoParams subject1 = true ->
  exists weapon rest ammo,
    weapons (world bm) subject = weapon :: rest
    /\ snd (ensureValidAmmoSelected (world bm) (weapon_Ammo weapon)) = Some ammo
    /\ JS.streq (item_Ammo ammo) (weapon_Ammo weapon) = true
    /\ 1 <= _ammoToConsumeCount subject1
         <= Z.max 1 (numItems (world bm1) ammo).
Proof.
  intros Hs Hunarmed Hstart Hs1 Harmed.
  destruct (startAction_inv bm bm1 Hstart)
    as [-> | (subject0 & action & weapon & rest & Hs0 & _ & Hweapons & Hw & Hsel)].
  - rewrite Hs in Hs1. injection Hs1 as <-. congruence.
  - rewrite Hs in Hs0. injection Hs0 as <-.
    destruct (ensureValidAmmoSelected (world bm) (weapon_Ammo weapon))
      as [w1 [ammo|]] eqn:He; cbn [fst snd] in *.
    + destruct Hsel as (subject2 & subject3 & Happ & Hs3 & Hsame).
      rewrite Hs1 in Hs3. injection Hs3 as <-.
      exists weapon, rest, ammo. split; [exact Hweapons|].
      split; [rewrite He; reflexivity|].
      split; [exact (ensureValidAmmoSelected_tag _ _ _ _ He)|].
      apply applyAmmoEffects_count in Happ. destruct Happ as [_ Hcount].
      destruct Hsame as [-> | (bw & ->)]; exact Hcount.
    + rewrite Hs1 in Hsel. injection Hsel as ->. discriminate.
Qed.

(** X20: the Start hook throws exactly when the subject is an actor with
    neither weapon copy (it was never set up with a weapon) who holds a
    weapon with an ammo type, the action is an ammo action, and an ammo item
    is found for it. *)
Theorem startAction_fails_iff (bm : BattleManager W) :
  startAction bm = None <->
  exists subject action weapon rest ammo,
    _subject bm = Some (BActor subject)
    /\ _action bm = Some action
    /\ host_weapons subject = weapon :: rest
    /\ _battleWeapon subject = None
    /\ _originalWeaponData subject = None
    /\ JS.truthy (weapon_Ammo weapon) = true
    /\ (isAttack action || note_UseAmmo action
        || note_StrictAmmo action || note_MultiShot action) = true
    /\ snd (ensureValidAmmoSelected (world bm) (weapon_Ammo weapon))
       = Some ammo.
Proof.
  unfold startAction. split.
  - destruct (_subject bm) as [[subject|]|]; [|discriminate|discriminate].
    destruct (_action bm) as [action|]; [|discriminate].
    destruct (weapons (world bm) subject) as [|weapon rest] eqn:Hw;
      [discriminate|].
    cbv zeta.
    destruct (JS.truthy (weapon_Ammo weapon)) eqn:Hty; [|discriminate].
    destruct (isAttack action || _ || _ || _) eqn:Hammo; [|discriminate].
    cbn [andb].
    destruct (ensureValidAmmoSelected (world bm) (weapon_Ammo weapon))
      as [w1 [ammo|]] eqn:He; [|discriminate].
    destruct (applyAmmoEffects w1 (resetAmmoEffects subject) (Some ammo) action)
      as [subject2|] eqn:Happ.
    + destruct (isAttack action); [discriminate|].
      destruct (isSkill action); discriminate.
    + intros _.
      destruct (_battleWeapon (resetAmmoEffects subject)) as [bw|] eqn:Hbw.
      * destruct (applyAmmoEffects_shape w1 (resetAmmoEffects subject) ammo
                    action bw Hbw) as (? & ? & ? & ? & ? & _ & Hshape).
        rewrite Hshape in Happ. discriminate.
      * cbn in Hbw.
        destruct (_originalWeaponData subject) eqn:Ho; [discriminate|].
        exists subject, action, weapon, rest, ammo.
        unfold weapons in Hw. rewrite Hbw in Hw.
        assert (Hhw : host_weapons subject = weapon :: rest)
          by (destruct (inBattle (world bm)); exact Hw).
        rewrite He. repeat split; auto.
  - intros (subject & action & weapon & rest & ammo & -> & -> & Hhw & Hbw & Ho
            & Hty & Hammo & Hsel).
    assert (Hw : weapons (world bm) subject = weapon :: rest)
      by (unfold weapons; rewrite Hbw, Hhw; destruct (inBattle (world bm));
          reflexivity).
    rewrite Hw. cbv zeta. rewrite Hty, Hammo. cbn [andb].
    destruct (ensureValidAmmoSelected (world bm) (weapon_Ammo weapon))
      as [w1 sel]. cbn in Hsel. subst sel.
    rewrite applyAmmoEffects_null_weapon; [reflexivity|].
    cbn. rewrite Ho. exact Hbw.
Qed.

(** X21: on a host where [hasItem] and the party's item list only name
    items with a positive count and where writing a slot leaves the counts
    alone, the pending count the Start hook arms an actor with is between 1
    and the owned count of the selected item. *)
Theorem startAction_never_overdraws (bm bm1 : BattleManager W)
    (subject subject1 : Actor) :
  (forall it, hasItem (world bm) it = true -> 1 <= numItems (world bm) it) ->
  (forall it, In (Some it) (partyItems (world bm)) ->
              1 <= numItems (world bm) it) ->
  (forall vid v it, numItems (setValue vid v (world bm)) it
                    = numItems (world bm) it) ->
  _subject bm = Some (BActor subject) ->
  _isApplyingTempAmmoParams subject = false ->
  startAction bm = Some bm1 ->
  _subject bm1 = Some (BActor subject1) ->
  _isApplyingTempAmmoParams subject1 = true ->
  exists weapon rest ammo,
    weapons (world bm) subject = weapon :: rest
    /\ snd (ensureValidAmmoSelected (world bm) (weapon_Ammo weapon)) = Some ammo
    /\ 1 <= _ammoToConsumeCount subject1 <= numItems (world bm1) ammo
    /\ numItems (world bm1) ammo = numItems (world bm) ammo.
Proof.
  intros Hhas Hparty Hset Hs Hunarmed Hstart Hs1 Harmed.
  destruct (startAction_inv bm bm1 Hstart)
    as [-> | (subject0 & action & weapon & rest & Hs0 & _ & Hweapons & Hw & Hsel)].
  - rewrite Hs in Hs1. injection Hs1 as <-. congruence.
  - rewrite Hs in Hs0. injection Hs0 as <-.
    destruct (ensureValidAmmoSelected (world bm) (weapon_Ammo weapon))
      as [w1 [ammo|]] eqn:He; cbn [fst snd] in *.
    + destruct Hsel as (subject2 & subject3 & Happ & Hs3 & Hsame).
      rewrite Hs1 in Hs3. injection Hs3 as <-.
      exists weapon, rest, ammo. split; [exact Hweapons|].
      split; [rewrite He; reflexivity|].
      assert (Hsame_stock : numItems (world bm1) ammo = numItems (world bm) ammo).
      { rewrite Hw.
        destruct (ensureValidAmmoSelected_world (world bm) (weapon_Ammo weapon))
          as [Hw0 | (vid & v & _ & Hw0)]; rewrite He in Hw0; cbn in Hw0;
          rewrite Hw0; [reflexivity|apply Hset]. }
      assert (Hown : 1 <= numItems (world bm) ammo).
      { destruct (ensureValidAmmoSelected_owned _ _ _ _ He); auto. }
      apply applyAmmoEffects_count in Happ. destruct Happ as [_ Hcount].
      split; [|exact Hsame_stock].
      assert (Hc : 1 <= _ammoToConsumeCount subject2
                   <= numItems (world bm1) ammo) by lia.
      destruct Hsame as [-> | (bw & ->)]; exact Hc.
    + rewrite Hs1 in Hsel. injection Hsel as ->. discriminate.
Qed.

End StartMore.

Section NoStock.

Context {W : Type} `{Host W}.


End NoStock.

Section EndMore.

Context {W : Type} `{Host W}.

(** X22: after the End hook an actor subject is never armed: [xparam] and
    [paramPlus] answer the host's values for every id, and the world is the
    one before the hook. *)
Theorem endAction_leaves_base_stats (bm : BattleManager W) (a' : Actor) :
  _subject (endAction bm) = Some (BActor a') ->
  _isApplyingTempAmmoParams a' = false
  /\ (forall id, xparam a' id = host_xparam a' id)
  /\ (forall id, paramPlus a' id = host_paramPlus a' id)
  /\ world (endAction bm) = world bm.
Proof.
  unfold endAction. cbn.
  destruct (_subject bm) as [[subject|]|]; [|discriminate|discriminate].
  assert (Hbase : forall a, _isApplyingTempAmmoParams a = false ->
            _isApplyingTempAmmoParams a = false
            /\ (forall id, xparam a id = host_xparam a id)
            /\ (forall id, paramPlus a id = host_paramPlus a id)
            /\ world bm = world bm).
  { intros a Ha. unfold xparam, paramPlus. rewrite Ha. cbn. auto. }
  destruct (_isApplyingTempAmmoParams subject) eqn:Harmed;
    intros [= <-]; apply Hbase; [reflexivity|exact Harmed].
Qed.

(** X23: after the End hook the action carries no animation override: both
    [Game_Action.animationId] and [Window_BattleLog.showAnimation] use the
    animation id they are given. *)
Theorem endAction_clears_animation_override (bm : BattleManager W)
    (action' : Action) (host_animationId : Q) :
  _action (endAction bm) = Some action' ->
  animationId action' host_animationId = host_animationId
  /\ showAnimation (_action (endAction bm)) host_animationId
     = host_animationId.
Proof.
  intros Hact. rewrite Hact. unfold showAnimation, animationId.
  assert (Hoff : JS.ltb 0 (_overrideAnimationId action') = false).
  { revert Hact. unfold endAction. cbn.
    destruct (_action bm) as [action|]; [|discriminate].
    destruct (Qeq_bool (_overrideAnimationId action) 0) eqn:Hz; cbn;
      intros [= <-]; [|reflexivity].
    apply Qeq_bool_iff in Hz. apply ltb_false. rewrite Hz. apply Qle_refl. }
  rewrite Hoff. split; reflexivity.
Qed.

Lemma hasValidAmmo_unslotted (w : W) (ty : option string) :
  unslotted ty -> hasValidAmmo w ty = true.
Proof.
  unfold hasValidAmmo. intros [-> | ->]; reflexivity.
Qed.

(** X24: [itemHit] is the wrapped method's result for every action and
    target when the first weapon's ammo type has no selection slot, or when
    the party owns any item of that type: the strict fallback needs a
    slotted category and an empty stock. *)
Theorem strict_fallback_needs_slot_and_empty_stock {T : Type}
    (host_itemHit : T -> Q) (w : W) (subject : Actor) (action : Action)
    (target : T) (weapon : Weapon) (rest : list Weapon) :
  weapons w subject = weapon :: rest ->
  unslotted (weapon_Ammo weapon)
  \/ findBestMatchingAmmoItem w (weapon_Ammo weapon) <> None ->
  itemHit host_itemHit w (Some (BActor subject)) action target
  = host_itemHit target.
Proof.
  intros Hw Hvalid.
  assert (Hv : hasValidAmmo w (weapon_Ammo weapon) = true).
  { destruct Hvalid as [Hu | Hbest].
    - exact (hasValidAmmo_unslotted w _ Hu).
    - destruct (hasValidAmmo w (weapon_Ammo weapon)) eqn:Hh; [reflexivity|].
      apply hasValidAmmo_false in Hh. destruct Hh as [_ Hnone]. contradiction. }
  unfold itemHit. rewrite Hw. cbv zeta. rewrite Hv, andb_false_r.
  destruct (isSkill action); [|reflexivity].
  destruct (StrictAmmo action); reflexivity.
Qed.

End EndMore.

Section SetupMore.

Context {W : Type} `{Host W}.

(** X25: [setupBattleWeapon] throws exactly when the actor's first weapon
    has a [DefaultWeaponId] other than 0 that names no weapon of the
    database. *)
Theorem setupBattleWeapon_fails_iff (a : Actor) :
  setupBattleWeapon a = None <->
  exists weapon rest i,
    host_weapons a = weapon :: rest
    /\ weapon_DefaultWeaponId weapon = Some i /\ i <> 0
    /\ dataWeapons i = None.
Proof.
  unfold setupBattleWeapon. split.
  - destruct (host_weapons a) as [|weapon rest]; [discriminate|]. cbv zeta.
    destruct (weapon_DefaultWeaponId weapon) as [i|] eqn:Hd; [|discriminate].
    destruct (Z.eqb_spec i 0) as [|Hnz]; [discriminate|].
    destruct (dataWeapons i) eqn:Hdw; [discriminate|].
    intros _. exists weapon, rest, i. auto.
  - intros (weapon & rest & i & -> & Hd & Hnz & Hdw). cbv zeta.
    rewrite Hd. destruct (Z.eqb_spec i 0); [contradiction|].
    rewrite Hdw. reflexivity.
Qed.

(** X26: when [setupBattleWeapon] succeeds, the working and the pristine
    copy are equal, the equipped weapons and the armed flag are untouched;
    an actor without weapon has no copy, and otherwise the copy is the
    default weapon the first weapon names, or the first weapon itself, and
    in battle [weapons] returns it in place of the first weapon. *)
Theorem setupBattleWeapon_seeds_both_copies (w : W) (a a' : Actor) :
  setupBattleWeapon a = Some a' ->
  _battleWeapon a' = _originalWeaponData a'
  /\ host_weapons a' = host_weapons a
  /\ _isApplyingTempAmmoParams a' = _isApplyingTempAmmoParams a
  /\ match host_weapons a with
     | [] => _battleWeapon a' = None /\ weapons w a' = []
     | weapon :: rest =>
         exists base,
           _battleWeapon a' = Some base
           /\ (inBattle w = true -> weapons w a' = base :: rest)
           /\ match weapon_DefaultWeaponId weapon with
              | Some i => if i =? 0 then base = weapon
                          else dataWeapons i = Some base
              | None => base = weapon
              end
     end.
Proof.
  unfold setupBattleWeapon.
  destruct (host_weapons a) as [|weapon rest] eqn:Hhw.
  - intros [= <-]. cbn. unfold weapons. cbn. rewrite Hhw.
    destruct (inBattle w); auto.
  - cbv zeta.
    destruct (match weapon_DefaultWeaponId weapon with
              | Some i => if i =? 0 then Some weapon else dataWeapons i
              | None => Some weapon
              end) as [base|] eqn:Hbase; [|discriminate].
    intros [= <-]. cbn. repeat split; auto. exists base.
    split; [reflexivity|]. split.
    + intros Hb. unfold weapons. cbn. rewrite Hb, Hhw. reflexivity.
    + destruct (weapon_DefaultWeaponId weapon) as [i|];
        [destruct (i =? 0)|]; congruence.
Qed.

(** X27: [BattleManager.setup] throws exactly when [setupBattleWeapon]
    throws for some member; otherwise every member is set up, in order, and
    has both copies or none. *)
Theorem setup_all_or_nothing (members : list Actor) :
  (setup members = None <->
   exists member, In member members /\ setupBattleWeapon member = None)
  /\ (forall members', setup members = Some members' ->
        Forall2 (fun a a' => setupBattleWeapon a = Some a') members members'
        /\ Forall copiesPaired members').
Proof.
  induction members as [|actor rest [IHnone IHsome]]; cbn.
  - split.
    + split; [discriminate|]. intros (m & [] & _).
    + intros members' [= <-]. split; constructor.
  - destruct (setupBattleWeapon actor) as [actor'|] eqn:Hactor.
    + destruct (setup rest) as [rest'|] eqn:Hrest.
      * split.
        -- split; [discriminate|].
           intros (m & [<-|Hin] & Hm); [congruence|].
           assert (@None (list Actor) = None) as _ by reflexivity.
           destruct IHnone as [_ Hback].
           discriminate Hback. now exists m.
        -- intros members' [= <-].
           destruct (IHsome rest' eq_refl) as [Hall Hp].
           split; constructor; auto.
           exact (setupBattleWeapon_paired actor actor' Hactor).
      * split; [|discriminate].
        split; [|reflexivity]. intros _.
        destruct IHnone as [Hfwd _].
        destruct (Hfwd eq_refl) as (m & Hin & Hm).
        exists m. split; [now right|exact Hm].
    + split; [|discriminate].
      split; [|reflexivity]. intros _. exists actor. split; [now left|exact Hactor].
Qed.

(** X28: after [endBattle] every member has no weapon copy and a cleared
    overlay, so [weapons] returns the equipped weapons again, which
    [endBattle] does not change. *)
Theorem endBattle_drops_everything (w : W) (members : list Actor) :
  Forall (fun a => overlayCleared a
                   /\ _battleWeapon a = None
                   /\ _originalWeaponData a = None
                   /\ xparam a 0 = host_xparam a 0)
         (endBattle members)
  /\ map (weapons w) (endBattle members) = map host_weapons members
  /\ map host_weapons (endBattle members) = map host_weapons members.
Proof.
  unfold endBattle. repeat split.
  - apply Forall_forall. intros a Hin. apply in_map_iff in Hin.
    destruct Hin as (a0 & <- & _).
    split; [apply resetAmmoEffects_cleared|]. cbn. auto.
  - rewrite map_map. apply map_ext. intros a. unfold weapons. cbn.
    destruct (inBattle w); reflexivity.
  - rewrite map_map. reflexivity.
Qed.

End SetupMore.

Section Tag.

Lemma split_nonempty (sep : Ascii.ascii) (s : string) : split sep s <> [].
Proof.
  destruct s as [|c rest]; cbn; [discriminate|].
  destruct (Ascii.eqb c sep); [discriminate|].
  destruct (split sep rest); discriminate.
Qed.

Lemma join_cons (sep : Ascii.ascii) (part : string) (parts : list string) :
  parts <> [] ->
  join sep (part :: parts) = (part ++ String sep (join sep parts))%string.
Proof. destruct parts; [contradiction|reflexivity]. Qed.

Lemma join_split (sep : Ascii.ascii) (s : string) :
  join sep (split sep s) = s /\ Forall (free sep) (split sep s).
Proof.
  induction s as [|c rest [IHj IHf]].
  - split; [reflexivity|]. constructor; [|constructor]. intros c [].
  - cbn [split]. destruct (Ascii.eqb_spec c sep) as [->|Hne].
    + split.
      * rewrite join_cons by apply split_nonempty. now rewrite IHj.
      * constructor; [intros c []|exact IHf].
    + destruct (split sep rest) as [|p ps] eqn:Hsp;
        [now apply split_nonempty in Hsp|].
      split.
      * destruct ps as [|q qs].
        -- cbn in *. now rewrite IHj.
        -- rewrite join_cons by discriminate.
           rewrite join_cons in IHj by discriminate.
           cbn [append]. now rewrite IHj.
      * inversion IHf as [|? ? Hp Hps]; subst. constructor; [|exact Hps].
        intros c0 [<-|Hin]; [exact Hne|now apply Hp].
Qed.

Lemma split_free (sep : Ascii.ascii) (s : string) : free sep s -> split sep s = [s].
Proof.
  induction s as [|c rest IH]; intros Hfree; [reflexivity|].
  cbn [split]. destruct (Ascii.eqb_spec c sep) as [->|Hne].
  - exfalso. apply (Hfree sep); [now left|reflexivity].
  - rewrite IH; [reflexivity|]. intros c0 Hin. apply Hfree. now right.
Qed.

Lemma split_app (sep : Ascii.ascii) (a b : string) :
  free sep a ->
  split sep (a ++ String sep b) = a :: split sep b.
Proof.
  induction a as [|c rest IH]; intros Hfree; cbn [append split].
  - now rewrite Ascii.eqb_refl.
  - destruct (Ascii.eqb_spec c sep) as [->|Hne].
    + exfalso. apply (Hfree sep); [now left|reflexivity].
    + rewrite IH; [reflexivity|]. intros c0 Hin. apply Hfree. now right.
Qed.

(** X29: [getNotetagLowAmmoAnimInfo] returns a pair exactly when the tag's
    text is two parts around a single [';'] and [Number] accepts both
    parts; the pair holds the two numbers in that order. *)
Theorem getNotetagLowAmmoAnimInfo_some_iff (Number : string -> option Q)
    (value0 : option string) (info : LowAmmoAnimInfo) :
  getNotetagLowAmmoAnimInfo Number value0 = Some info <->
  exists part0 part1,
    value0 = Some (part0 ++ String semicolon part1)%string
    /\ free semicolon part0 /\ free semicolon part1
    /\ Number part0 = Some (quantity info)
    /\ Number part1 = Some (animId info).
Proof.
  unfold getNotetagLowAmmoAnimInfo. split.
  - destruct value0 as [v|]; [|discriminate].
    destruct (String.eqb v EmptyString); [discriminate|].
    destruct (join_split semicolon v) as [Hjoin Hfree].
    destruct (split semicolon v) as [|p0 [|p1 [|p2 ps]]];
      [discriminate|discriminate| |discriminate].
    destruct (Number p0) as [q|] eqn:H0; [|discriminate].
    destruct (Number p1) as [i|] eqn:H1; [|discriminate].
    intros [= <-]. exists p0, p1. cbn [join] in Hjoin. rewrite <- Hjoin.
    inversion Hfree as [|? ? Hf0 Hrest]; subst.
    inversion Hrest as [|? ? Hf1 _]; subst. cbn [quantity animId]. auto.
  - intros (p0 & p1 & -> & Hf0 & Hf1 & H0 & H1).
    assert (Hne : String.eqb (p0 ++ String semicolon p1) EmptyString = false)
      by (destruct p0; reflexivity).
    rewrite Hne, (split_app semicolon p0 p1 Hf0), (split_free semicolon p1 Hf1).
    rewrite H0, H1. destruct info; reflexivity.
Qed.

End Tag.

(** ** The further properties at work on the sample battle *)

(** X1: with no arrow left, the first match is the fire arrow. *)
Lemma findBestMatchingAmmoItem_first_match_witness :
  exists before after,
    @partyItems _ MV.demo (MV.inventory 0 2)
    = before ++ Some MV.fireArrow :: after
    /\ @isItem _ MV.demo MV.fireArrow = true
    /\ JS.streq (item_Ammo MV.fireArrow) (Some "Arrow"%string) = true
    /\ forall other, In (Some other) before ->
         @isItem _ MV.demo other
         && JS.streq (item_Ammo other) (Some "Arrow"%string) = false.
Proof.
  apply (proj1 (@findBestMatchingAmmoItem_first_match _ MV.demo
                  (MV.inventory 0 2) (Some "Arrow"%string)) MV.fireArrow).
  vm_compute; reflexivity.
Defined.

(** X2: the reselected fire arrow carries the tag "Arrow". *)
Lemma selected_item_is_of_category_witness :
  JS.streq (item_Ammo MV.fireArrow) (Some "Arrow"%string) = true.
Proof.
  apply (@selected_item_is_of_category _ MV.demo (MV.inventory 0 2)
           (MV.write 10 6 (MV.inventory 0 2)) (Some "Arrow"%string)
           MV.fireArrow).
  vm_compute; reflexivity.
Defined.

(** X3: with nothing owned neither function finds ammo. *)
Lemma hasValidAmmo_agrees_with_selection_witness :
  @hasValidAmmo _ MV.demo (MV.inventory 0 0) (Some "Arrow"%string) = false.
Proof.
  apply (@hasValidAmmo_agrees_with_selection _ MV.demo (MV.inventory 0 0)
           (Some "Arrow"%string) 10); [reflexivity|lia].
Defined.

(** X4: three arrows owned and selected: the selection stays. *)
Lemma valid_selection_is_kept_witness :
  @ensureValidAmmoSelected _ MV.demo (MV.inventory 3 2) (Some "Arrow"%string)
  = (MV.inventory 3 2, Some MV.arrow)
  /\ @hasValidAmmo _ MV.demo (MV.inventory 3 2) (Some "Arrow"%string) = true.
Proof.
  apply (@valid_selection_is_kept _ MV.demo (MV.inventory 3 2)
           (Some "Arrow"%string) 10 MV.arrow);
    (reflexivity || lia).
Defined.

(** X5: an actor that was never set up cannot be armed. *)
Lemma applyAmmoEffects_fails_iff_witness :
  @applyAmmoEffects _ MV.demo (MV.inventory 3 2) (MV.recruit [MV.bow])
    (Some MV.arrow) MV.attack = None.
Proof.
  apply (proj1 (@applyAmmoEffects_fails_iff _ MV.demo (MV.inventory 3 2)
                  (MV.recruit [MV.bow]) MV.arrow MV.attack)).
  reflexivity.
Defined.

(** X6: arming the archer for a volley and resetting. *)
Lemma resetAmmoEffects_undoes_applyAmmoEffects_witness :
  exists a',
    @applyAmmoEffects _ MV.demo (MV.inventory 3 2) (MV.archer (1 # 2))
      (Some MV.arrow) (MV.volley 5 90) = Some a'
    /\ resetAmmoEffects a' = resetAmmoEffects (MV.archer (1 # 2)).
Proof.
  eexists. split; [vm_compute; reflexivity|].
  apply (@resetAmmoEffects_undoes_applyAmmoEffects _ MV.demo
           (MV.inventory 3 2) (MV.archer (1 # 2)) _ (Some MV.arrow)
           (MV.volley 5 90)).
  vm_compute; reflexivity.
Defined.

(** X7: the basic attack of the specification's first example. *)
Lemma singleShot_overlay_witness :
  exists a',
    @applyAmmoEffects _ MV.demo (MV.inventory 3 2) (MV.archer (1 # 2))
      (Some MV.arrow) MV.attack = Some a'
    /\ _tempAmmoAtk a' = (8 # 1)%Q
    /\ _ammoToConsumeCount a' = 1.
Proof.
  destruct (@singleShot_overlay _ MV.demo (MV.inventory 3 2)
              (MV.archer (1 # 2)) MV.arrow MV.attack MV.bow)
    as (a' & Happ & _ & Hatk & _ & _ & _ & _ & _ & _ & Hcount).
  - reflexivity.
  - left; reflexivity.
  - exists a'. split; [exact Happ|]. split; [exact Hatk|exact Hcount].
Defined.

(** X8: three shots, one state entry: three entries. *)
Lemma multiShot_states_repeated_witness :
  exists a',
    @applyAmmoEffects _ MV.demo (MV.inventory 3 2) (MV.archer (1 # 2))
      (Some MV.arrow) (MV.volley 5 90) = Some a'
    /\ Z.of_nat (List.length (_tempAmmoStateInfo a')) = 3.
Proof.
  destruct (@multiShot_states_repeated _ MV.demo (MV.inventory 3 2)
              (MV.archer (1 # 2)) MV.arrow (MV.volley 5 90) 5 MV.bow)
    as (a' & Happ & _ & Hlen & _).
  - reflexivity.
  - reflexivity.
  - vm_compute; discriminate.
  - exists a'. split; [exact Happ|exact Hlen].
Defined.

(** X9: crit bonus 10, no threshold, three shots: 0.0875. *)
Lemma multiShot_crit_rate_delta_witness :
  exists a',
    @applyAmmoEffects _ MV.demo (MV.inventory 3 2) (MV.archer (1 # 2))
      (Some MV.arrow) (MV.volley 5 90) = Some a'
    /\ (_tempAmmoCrit a' == 875 # 10000)%Q.
Proof.
  destruct (@multiShot_crit_rate_delta _ MV.demo (MV.inventory 3 2)
              (MV.archer (1 # 2)) MV.arrow (MV.volley 5 90) 5 MV.bow)
    as (a' & Happ & Hpos & _).
  - reflexivity.
  - reflexivity.
  - vm_compute; discriminate.
  - exists a'. split; [exact Happ|].
    apply (Qeq_trans _ _ _ (Hpos eq_refl)). reflexivity.
Defined.

(** X10: the armed archer's attack parameter. *)
Lemma armed_stat_queries_witness :
  exists a',
    @applyAmmoEffects _ MV.demo (MV.inventory 3 2) (MV.archer (1 # 2))
      (Some MV.arrow) MV.attack = Some a'
    /\ paramPlus a' 2 = (0 + _tempAmmoAtk a')%Q.
Proof.
  eexists. split; [vm_compute; reflexivity|].
  apply (@armed_stat_queries _ MV.demo (MV.inventory 3 2)
           (MV.archer (1 # 2)) _ MV.arrow MV.attack).
  vm_compute; reflexivity.
Defined.

(** X11: fire arrows carry element 2. *)
Lemma element_override_while_armed_witness :
  exists a',
    @applyAmmoEffects _ MV.demo (MV.inventory 0 2) (MV.archer (1 # 2))
      (Some MV.fireArrow) MV.attack = Some a'
    /\ calcElementRate (fun (_ : unit) e => e) (fun _ => 1%Q)
         (Some (BActor a')) tt = (2 # 1)%Q.
Proof.
  eexists. split; [vm_compute; reflexivity|].
  apply (@element_override_while_armed _ MV.demo unit (fun _ e => e)
           (fun _ => 1%Q) (MV.inventory 0 2) (MV.archer (1 # 2)) _
           MV.fireArrow MV.attack tt).
  vm_compute; reflexivity.
Defined.

(** X12: the stats of the specification's second example, three shots. *)
Lemma singleShotHitChance_clamped_witness :
  (1 # 100 <= singleShotHitChance (1 # 2) (1 # 10) (2 # 10) (9 # 10))%Q.
Proof.
  apply (singleShotHitChance_clamped (1 # 2) (1 # 10) (2 # 10) (9 # 10) 3).
  lia.
Defined.

(** X13: [a = 15], three shots. *)
Lemma totalBonus_bounds_witness :
  (15 <= totalBonus 15 3)%Q /\ (totalBonus 15 3 <= 2 * 15)%Q.
Proof.
  destruct (totalBonus_bounds 15 eq_refl) as (Hup & _ & Hlow).
  split; [apply Hlow; [lia|discriminate]|apply Hup; lia].
Defined.

(** X14: three arrows of flat attack 8: at most 24. *)
Lemma volley_attack_delta_bounded_witness :
  exists a',
    @applyAmmoEffects _ MV.demo (MV.inventory 3 2) (MV.archer (1 # 2))
      (Some MV.arrow) (MV.volley 5 90) = Some a'
    /\ (0 <= _tempAmmoAtk a')%Q
    /\ (_tempAmmoAtk a' <= inject_Z 24)%Q.
Proof.
  apply (@volley_attack_delta_bounded _ MV.demo (MV.inventory 3 2)
           (MV.archer (1 # 2)) MV.arrow (MV.volley 5 90) 5 MV.bow).
  - reflexivity.
  - reflexivity.
  - vm_compute; discriminate.
  - vm_compute; discriminate.
Defined.

(** X15: a chance of 100% or more always inflicts. *)
Lemma rollStates_by_chance_witness :
  rollStates (fun _ => 1 # 2) 0%nat [(4, 1 # 1); (5, 3 # 2)] = [4; 5].
Proof.
  apply (proj1 (proj2 (rollStates_by_chance (fun _ => 1 # 2)
                         [(4, 1 # 1); (5, 3 # 2)]
                         (fun _ => conj (Qlt_le_weak 0 (1 # 2) eq_refl)
                                        eq_refl))) 0%nat).
  repeat constructor; discriminate.
Defined.

(** X16: the arrow's state 4 lands on a living enemy that was hit. *)
Lemma apply_adds_states_only_on_live_enemy_hit_witness :
  result_isHit MV.hit = true /\ target_isEnemy MV.hit = true
  /\ target_isAlive MV.hit = true
  /\ exists subject,
       _subject (MV.started (MV.attacking 3 2)) = Some (BActor subject)
       /\ _isApplyingTempAmmoParams subject = true
       /\ In 4 (map fst (_tempAmmoStateInfo subject)).
Proof.
  apply (@apply_adds_states_only_on_live_enemy_hit _ MV.demo
           (MV.started (MV.attacking 3 2)) MV.hit 4).
  vm_compute. left; reflexivity.
Defined.

(** X18: the Start hook that reselects writes slot 10 and nothing else. *)
Lemma startAction_never_touches_stock_witness :
  world (MV.started (MV.attacking 0 2)) = world (MV.attacking 0 2)
  \/ exists vid v,
       vid <> 0
       /\ world (MV.started (MV.attacking 0 2))
          = @setValue _ MV.demo vid v (world (MV.attacking 0 2)).
Proof.
  apply (@startAction_never_touches_stock _ MV.demo (MV.attacking 0 2)
           (MV.started (MV.attacking 0 2))).
  vm_compute; reflexivity.
Defined.

(** X19: the volley is armed with arrows, three of them pending. *)
Lemma startAction_arms_with_selected_ammo_witness :
  exists weapon rest ammo,
    @weapons _ MV.demo (world (MV.volleying 3 2)) (MV.archer (1 # 2))
    = weapon :: rest
    /\ snd (@ensureValidAmmoSelected _ MV.demo (world (MV.volleying 3 2))
              (weapon_Ammo weapon)) = Some ammo
    /\ JS.streq (item_Ammo ammo) (weapon_Ammo weapon) = true
    /\ 1 <= _ammoToConsumeCount (MV.actorOf (MV.started (MV.volleying 3 2)))
         <= Z.max 1 (@numItems _ MV.demo
                       (world (MV.started (MV.volleying 3 2))) ammo).
Proof.
  apply (@startAction_arms_with_selected_ammo _ MV.demo (MV.volleying 3 2)
           (MV.started (MV.volleying 3 2)) (MV.archer (1 # 2))
           (MV.actorOf (MV.started (MV.volleying 3 2))));
    (reflexivity || (vm_compute; reflexivity)).
Defined.

(** X20: a recruit who took up the bow after the battle was set up. *)
Lemma startAction_fails_iff_witness :
  @startAction _ MV.demo
    (mkBM (MV.inventory 3 2) (Some (BActor (MV.recruit [MV.bow])))
          (Some MV.attack)) = None.
Proof.
  apply (proj2 (@startAction_fails_iff _ MV.demo
                  (mkBM (MV.inventory 3 2)
                        (Some (BActor (MV.recruit [MV.bow])))
                        (Some MV.attack)))).
  exists (MV.recruit [MV.bow]), MV.attack, MV.bow, [], MV.arrow.
  repeat split.
Defined.

(** X21: the sample host keeps the three laws; three arrows, three pending. *)
Lemma startAction_never_overdraws_witness :
  exists weapon rest ammo,
    @weapons _ MV.demo (world (MV.volleying 3 2)) (MV.archer (1 # 2))
    = weapon :: rest
    /\ snd (@ensureValidAmmoSelected _ MV.demo (world (MV.volleying 3 2))
              (weapon_Ammo weapon)) = Some ammo
    /\ 1 <= _ammoToConsumeCount (MV.actorOf (MV.started (MV.volleying 3 2)))
         <= @numItems _ MV.demo (world (MV.started (MV.volleying 3 2))) ammo
    /\ @numItems _ MV.demo (world (MV.started (MV.volleying 3 2))) ammo
       = @numItems _ MV.demo (world (MV.volleying 3 2)) ammo.
Proof.
  apply (@startAction_never_overdraws _ MV.demo (MV.volleying 3 2)
           (MV.started (MV.volleying 3 2)) (MV.archer (1 # 2))
           (MV.actorOf (MV.started (MV.volleying 3 2)))).
  - intros it Hhas. apply Z.ltb_lt in Hhas.
    change (0 < MV.ownedCount (MV.inventory 3 2) it) in Hhas.
    change (1 <= MV.ownedCount (MV.inventory 3 2) it). lia.
  - intros it [Hin | [Hin | []]]; injection Hin as <-; vm_compute;
      discriminate.
  - reflexivity.
  - reflexivity.
  - reflexivity.
  - vm_compute; reflexivity.
  - reflexivity.
  - reflexivity.
Defined.

(** X22: after the End hook the archer's hit rate is the base 0.5 again. *)
Lemma endAction_leaves_base_stats_witness :
  let a' := MV.actorOf (@endAction _ (MV.started (MV.attacking 3 2))) in
  _isApplyingTempAmmoParams a' = false
  /\ (forall id, xparam a' id = host_xparam a' id)
  /\ (forall id, paramPlus a' id = host_paramPlus a' id)
  /\ world (@endAction MV.World (MV.started (MV.attacking 3 2)))
     = world (MV.started (MV.attacking 3 2)).
Proof.
  intros a'.
  apply (@endAction_leaves_base_stats MV.World
           (MV.started (MV.attacking 3 2)) a').
  reflexivity.
Defined.

(** X23: the no-ammo animation 99 set at Start is gone after End. *)
Lemma endAction_clears_animation_override_witness :
  _overrideAnimationId
    (match _action (MV.started (MV.aiming 0 0)) with
     | Some action => action
     | None => MV.aimedShot
     end) = (99 # 1)%Q
  /\ animationId MV.aimedShot (11 # 1) = (11 # 1)%Q
  /\ showAnimation (_action (@endAction MV.World (MV.started (MV.aiming 0 0))))
       (11 # 1) = (11 # 1)%Q.
Proof.
  split; [reflexivity|].
  apply (@endAction_clears_animation_override MV.World
           (MV.started (MV.aiming 0 0)) MV.aimedShot (11 # 1)).
  reflexivity.
Defined.

(** X24: with arrows owned the strict skill uses the normal hit chance. *)
Lemma strict_fallback_needs_slot_and_empty_stock_witness :
  @itemHit _ MV.demo unit (fun _ => 95 # 100) (MV.inventory 3 2)
    (Some (BActor (MV.archer (1 # 2)))) (MV.strictShot 30) tt
  = (95 # 100)%Q.
Proof.
  apply (@strict_fallback_needs_slot_and_empty_stock _ MV.demo unit
           (fun _ => 95 # 100) (MV.inventory 3 2) (MV.archer (1 # 2))
           (MV.strictShot 30) tt MV.bow []).
  - reflexivity.
  - right. vm_compute. discriminate.
Defined.

(** X25: the skin names weapon 7, which the database lacks. *)
Lemma setupBattleWeapon_fails_iff_witness :
  @setupBattleWeapon _ MV.demo (MV.recruit [MV.skin]) = None.
Proof.
  apply (proj2 (@setupBattleWeapon_fails_iff _ MV.demo (MV.recruit [MV.skin]))).
  exists MV.skin, [], 7. repeat split. discriminate.
Defined.

(** X26: the recruit with the bow gets two copies of the bow. *)
Lemma setupBattleWeapon_seeds_both_copies_witness :
  exists a',
    @setupBattleWeapon _ MV.demo (MV.recruit [MV.bow]) = Some a'
    /\ _battleWeapon a' = _originalWeaponData a'
    /\ host_weapons a' = [MV.bow].
Proof.
  eexists. split; [vm_compute; reflexivity|].
  destruct (@setupBattleWeapon_seeds_both_copies _ MV.demo (MV.inventory 3 2)
              (MV.recruit [MV.bow]) _ eq_refl) as (Hcopies & Hweapons & _).
  split; [exact Hcopies|exact Hweapons].
Defined.

(** X27: one member with the skin makes the whole setup throw. *)
Lemma setup_all_or_nothing_witness :
  @setup _ MV.demo [MV.recruit [MV.bow]; MV.recruit [MV.skin]] = None.
Proof.
  apply (proj2 (proj1 (@setup_all_or_nothing _ MV.demo
                         [MV.recruit [MV.bow]; MV.recruit [MV.skin]]))).
  exists (MV.recruit [MV.skin]). split; [right; left; reflexivity|reflexivity].
Defined.

(** X29: the help text's example [5;120]. *)
Lemma getNotetagLowAmmoAnimInfo_some_iff_witness :
  getNotetagLowAmmoAnimInfo MV.numberOf (Some "5;120"%string)
  = Some (mkLow (5 # 1) (120 # 1)).
Proof.
  apply (proj2 (getNotetagLowAmmoAnimInfo_some_iff MV.numberOf
                  (Some "5;120"%string) (mkLow (5 # 1) (120 # 1)))).
  exists "5"%string, "120"%string.
  split; [reflexivity|].
  split; [intros c [<-|[]]; discriminate|].
  split; [intros c [<-|[<-|[<-|[]]]]; discriminate|].
  split; reflexivity.
Defined.

